(** * Text-to-SQL chatbot: the query service's text handling, verified

    The development embeds the pure part of [backend/main.py]: the SQL
    extractor [clean_sql_query], the executor wrapper [execute_sql_safely],
    the result formatter [format_sql_result] and the [/query] handler
    [process_query], and proves the properties the specification states
    about them.

    A Python [str] is a sequence of Unicode code points; it is modelled as
    a list of code points ([N]).  The parts of the Python runtime the code
    calls ([str.strip], [str.split], [in], [str.upper], [re.sub] for the
    three patterns of the source) are written out below.

    Two further parts follow the handler: the lazily initialised globals
    with [startup_event] (module [Startup], explicit state passing), and
    the chat client's [query_backend] with the turn of [main] that updates
    the history (module [Frontend], [frontend/app.py]). *)

From Equations Require Import Equations.
From Equations.Prop Require Import Logic.
From Stdlib Require Import String Ascii List NArith Arith Bool Lia DecimalString.
Import ListNotations.

(** ** Python strings *)

Module PyStr.

Definition char := N.
Definition str := list char.

(** A literal of the source, read as its sequence of code points. *)
Definition py (s : string) : str := map N_of_ascii (list_ascii_of_string s).
Arguments py s%_string.

Definition eqb_char (a b : char) : bool := N.eqb a b.

(** [str.isspace] on one character: the code points Python treats as
    white space, which are also the ones [str.strip()] removes and the
    ones the regular expression class [\s] matches in a [str] pattern. *)
Definition isspace (c : char) : bool :=
  (((9 <=? c) && (c <=? 13)) || ((28 <=? c) && (c <=? 32))
   || (c =? 133) || (c =? 160) || (c =? 5760)
   || ((8192 <=? c) && (c <=? 8202))
   || (c =? 8232) || (c =? 8233) || (c =? 8239) || (c =? 8287)
   || (c =? 12288))%N.

(** [s.lstrip()] *)
Fixpoint lstrip (s : str) : str :=
  match s with
  | [] => []
  | c :: t => if isspace c then lstrip t else s
  end.

(** [s.rstrip()] *)
Fixpoint rstrip (s : str) : str :=
  match s with
  | [] => []
  | c :: t =>
      match rstrip t with
      | [] => if isspace c then [] else [c]
      | t' => c :: t'
      end
  end.

(** [s.strip()] *)
Definition strip (s : str) : str := rstrip (lstrip s).

(** [c in s] for a one-character [c]. *)
Definition mem (c : char) (s : str) : bool := existsb (eqb_char c) s.

(** [s.split(c)[0]]: the text before the first [c] (all of [s] when
    there is none). *)
Fixpoint split_head (c : char) (s : str) : str :=
  match s with
  | [] => []
  | d :: t => if eqb_char c d then [] else d :: split_head c t
  end.

(** [s.startswith(p)] under a character comparison [eqc], returning the
    text after the prefix. *)
Fixpoint drop_prefix (eqc : char -> char -> bool) (p s : str) : option str :=
  match p, s with
  | [], _ => Some s
  | _ :: _, [] => None
  | a :: p', c :: s' => if eqc a c then drop_prefix eqc p' s' else None
  end.

(** [s == '']. *)
Definition mem_nil (s : str) : bool := match s with [] => true | _ => false end.

Definition startswith (p s : str) : bool :=
  match drop_prefix eqb_char p s with Some _ => true | None => false end.

(** [p in s] for a string [p]: [p] occurs in [s] as a contiguous run. *)
Fixpoint contains (p s : str) : bool :=
  startswith p s || match s with [] => false | _ :: t => contains p t end.

Arguments eqb_char : simpl never.
Arguments isspace : simpl never.

End PyStr.

Import PyStr.

(** ** The regular expressions of [clean_sql_query] *)

Module Re.

Definition backtick : char := 96%N.
Definition newline : char := 10%N.

(** The fence marker: three backticks followed by the language tag. *)
Definition fence (tag : str) : str := backtick :: backtick :: backtick :: tag.

(** The optional newline [\n?] (greedy). *)
Definition skip_newline (s : str) : str :=
  match s with
  | c :: t => if eqb_char c newline then t else s
  | [] => []
  end.

(** One match attempt of [```tag\n?] at the start of [s]: the text after
    the match. *)
Definition match_fence (tag s : str) : option str :=
  option_map skip_newline (drop_prefix eqb_char (fence tag) s).

Lemma drop_prefix_length eqc p s r :
  drop_prefix eqc p s = Some r -> length s = length p + length r.
Proof.
  revert s; induction p as [|a p IH]; intros [|c s]; simpl; try congruence.
  - intros [= <-]; reflexivity.
  - intros [= <-]; reflexivity.
  - destruct (eqc a c); [|discriminate].
    intro H; apply IH in H; lia.
Qed.

Lemma skip_newline_length s : length (skip_newline s) <= length s.
Proof. destruct s as [|c t]; simpl; [lia|]. destruct (eqb_char c newline); simpl; lia. Qed.

Lemma match_fence_shorter tag s r :
  match_fence tag s = Some r -> length r < length s.
Proof.
  unfold match_fence.
  destruct (drop_prefix eqb_char (fence tag) s) as [r0|] eqn:E; [|discriminate].
  intros [= <-]. apply drop_prefix_length in E.
  pose proof (skip_newline_length r0). simpl in E. lia.
Qed.

(** [re.sub(r'```tag\n?', '', s)]: scan [s] from the left; where the
    pattern matches, drop the match and go on after it; elsewhere keep
    the character and move one position on. *)
Equations? sub_fence (tag s : str) : str by wf (length s) lt :=
  sub_fence tag [] := [];
  sub_fence tag (c :: t) with inspect (match_fence tag (c :: t)) := {
    | exist _ (Some r) _ := sub_fence tag r;
    | exist _ None _ := c :: sub_fence tag t }.
Proof. apply match_fence_shorter in e. exact e. Qed.

(** The unfolding of [sub_fence] on a non-empty string, as the scan reads. *)
Lemma sub_fence_cons tag c t :
  sub_fence tag (c :: t) =
  match match_fence tag (c :: t) with
  | Some r => sub_fence tag r
  | None => c :: sub_fence tag t
  end.
Proof.
  rewrite sub_fence_equation_2. unfold inspect.
  assert (H : forall o (e : match_fence tag (c :: t) = o),
             sub_fence_unfold_clause_2 tag c t (exist _ o e) =
             match o with
             | Some r => sub_fence tag r
             | None => c :: sub_fence tag t
             end) by (intros [r|] e; reflexivity).
  apply H.
Qed.

(** Case-insensitive comparison of a pattern character [p] with a subject
    character [c], as [re.IGNORECASE] does it on [str]: [c] matches when
    its lower case is the lower case of [p] or a character the engine
    treats as equivalent to it.  For the characters of the label patterns
    (space, colon and the letters e, l, q, r, s, u, y) this is: [c] is [p]
    in lower or upper case, or [p] is the letter s and [c] is the long s
    (U+017F). *)
Definition is_ascii_upper (c : char) : bool := ((65 <=? c) && (c <=? 90))%N.
Definition is_ascii_lower (c : char) : bool := ((97 <=? c) && (c <=? 122))%N.
Definition ascii_lower (c : char) : char := if is_ascii_upper c then (c + 32)%N else c.
Definition ascii_upper (c : char) : char := if is_ascii_lower c then (c - 32)%N else c.
Definition long_s : char := 383%N.

Definition matches_icase (p c : char) : bool :=
  let lo := ascii_lower p in
  eqb_char c lo || eqb_char c (ascii_upper lo)
  || (eqb_char lo 115%N && eqb_char c long_s).

(** The alternatives of [(SQL Query:|Query:|SQL:)], in the order tried. *)
Definition label_alternatives : list str :=
  [py "SQL Query:"; py "Query:"; py "SQL:"].

Fixpoint match_alternatives (alts : list str) (s : str) : option str :=
  match alts with
  | [] => None
  | a :: rest =>
      match drop_prefix matches_icase a s with
      | Some r => Some r
      | None => match_alternatives rest s
      end
  end.

(** One match attempt of [^(SQL Query:|Query:|SQL:)\s*] at the start of
    [s]: the text after the match. *)
Definition match_label (s : str) : option str :=
  option_map lstrip (match_alternatives label_alternatives s).

(** [re.sub(r'^(SQL Query:|Query:|SQL:)\s*', '', s, flags=re.IGNORECASE)]:
    without [re.MULTILINE] the anchor holds at the start of the string
    only, so at most one match is removed. *)
Definition sub_label (s : str) : str :=
  match match_label s with
  | Some r => r
  | None => s
  end.

End Re.

Import Re.

(** ** The SQL extractor *)

Definition semicolon : char := 59%N.

(** [if ';' in sql: sql = sql.split(';')[0] + ';'] *)
Definition truncate_at_semicolon (sql : str) : str :=
  if mem semicolon sql then split_head semicolon sql ++ [semicolon] else sql.

(** The text after white space, fence and label stripping. *)
Definition strip_markup (sql_response : str) : str :=
  let sql := strip sql_response in
  let sql := sub_fence (py "sql") sql in
  let sql := sub_fence [] sql in
  sub_label sql.

Definition clean_sql_query (sql_response : str) : str :=
  let sql := strip_markup sql_response in
  let sql := truncate_at_semicolon sql in
  strip sql.

(** ** Executor, formatter and handler *)

(** A call that returns a value or raises an exception [e]; [Raised]
    carries [str(e)]. *)
Inductive outcome (A : Type) : Type :=
| Returned (a : A)
| Raised (msg : str).
Arguments Returned {A} a.
Arguments Raised {A} msg.

Definition bind {A B} (m : outcome A) (k : A -> outcome B) : outcome B :=
  match m with
  | Returned a => k a
  | Raised e => Raised e
  end.

Notation "x <- m ;; k" := (bind m (fun x => k))
  (at level 61, m at next level, right associativity).

(** [db.run]: the rendered rows of a statement, or an exception. *)
Definition Database := str -> outcome str.

(** [chain.invoke]: the model's raw completion for a question, or an
    exception. *)
Definition Chain := str -> outcome str.

(** The lazily initialised components the handler obtains. *)
Record Services := {
  init_database : outcome Database;
  create_sql_chain : outcome Chain
}.

Record QueryRequest := { question : str }.

Record QueryResponse := {
  success : bool;
  result : option str;
  sql_query : option str;
  error : option str
}.

Record HTTPException := { status_code : N; detail : str }.

(** Truth value of an optional string: [None] and [''] are false. *)
Definition truthy (o : option str) : bool :=
  match o with
  | Some (_ :: _) => true
  | _ => false
  end.

Definition execute_sql_safely (db : Database) (query : str)
  : option str * option str :=
  match db query with
  | Returned result => (Some result, None)
  | Raised e => (None, Some e)
  end.

Definition no_results : str := py "No results found for your query.".

Section Formatter.

(** [str.upper] maps each character through Unicode's full case mapping.
    On ASCII it is written out; the mapping of the other code points is a
    table of the Python runtime, taken as a parameter. *)
Variable upper_table : char -> str.

Definition upper_char (c : char) : str :=
  if (c <? 128)%N then [ascii_upper c] else upper_table c.

Definition upper (s : str) : str := flat_map upper_char s.

Definition format_sql_result (result : option str) (question query : str) : str :=
  match result with
  | None => no_results
  | Some r =>
      if negb (truthy result) || mem_nil (strip r) then no_results
      else if contains (py "COUNT") (upper query) then py "The result is: " ++ r
      else py "Here are the results:" ++ [newline; newline] ++ r
  end.

Definition process_query (env : Services) (request : QueryRequest)
  : QueryResponse + HTTPException :=
  let body :=
    db <- init_database env ;;
    chain <- create_sql_chain env ;;
    raw_sql <- chain (question request) ;;
    let cleaned_sql := clean_sql_query raw_sql in
    let '(result, error) := execute_sql_safely db cleaned_sql in
    if truthy error then
      Returned {| success := false;
                  result := None;
                  sql_query := Some cleaned_sql;
                  error := option_map (app (py "SQL execution error: ")) error |}
    else
      let formatted_result := format_sql_result result (question request) cleaned_sql in
      Returned {| success := true;
                  result := Some formatted_result;
                  sql_query := Some cleaned_sql;
                  error := None |}
  in
  match body with
  | Returned response => inl response
  | Raised e =>
      inr {| status_code := 500; detail := py "Internal server error: " ++ e |}
  end.

End Formatter.

(** ** Lazily initialised components and start-up *)

Module Startup.

Section Components.

(** The handle to the language model; nothing but its identity counts. *)
Variable Llm : Type.

(** What the initialisers read and call outside the module: the process
    environment and the constructors of the client libraries, each of
    which returns a handle or raises. *)
Record World := {
  (** [os.getenv(name)]: [None] when the variable is not set. *)
  getenv : str -> option str;
  (** [ChatGoogleGenerativeAI(..., google_api_key=api_key, ...)]. *)
  ChatGoogleGenerativeAI : str -> outcome Llm;
  (** [SQLDatabase.from_uri(uri)]. *)
  from_uri : str -> outcome Database;
  (** The prompt templates piped into the model and the output parser:
      [final_prompt | llm | StrOutputParser()]. *)
  compose_chain : Llm -> outcome Chain
}.

(** The module's global variables, and the lines printed so far. *)
Record State := {
  llm : option Llm;
  db : option Database;
  sql_chain : option Chain;
  stdout : list str
}.

Definition initial : State :=
  {| llm := None; db := None; sql_chain := None; stdout := [] |}.

(** A computation on the globals that returns or raises; the state it
    leaves is kept in both cases. *)
Definition M (A : Type) : Type := State -> outcome A * State.

Definition then_ {A B} (m : M A) (k : A -> M B) : M B :=
  fun st =>
    match m st with
    | (Returned a, st') => k a st'
    | (Raised e, st') => (Raised e, st')
    end.

Definition set_llm (l : Llm) (st : State) : State :=
  {| llm := Some l; db := db st; sql_chain := sql_chain st; stdout := stdout st |}.

Definition set_db (d : Database) (st : State) : State :=
  {| llm := llm st; db := Some d; sql_chain := sql_chain st; stdout := stdout st |}.

Definition set_sql_chain (c : Chain) (st : State) : State :=
  {| llm := llm st; db := db st; sql_chain := Some c; stdout := stdout st |}.

(** [print(line)]; writing to the standard output is taken to succeed. *)
Definition print (line : str) (st : State) : State :=
  {| llm := llm st; db := db st; sql_chain := sql_chain st;
     stdout := stdout st ++ [line] |}.

Variable w : World.

Definition init_llm : M Llm :=
  fun st =>
    match llm st with
    | Some l => (Returned l, st)
    | None =>
        let api_key := getenv w (py "GOOGLE_API_KEY") in
        match api_key with
        | Some (c :: k) =>
            match ChatGoogleGenerativeAI w (c :: k) with
            | Returned l => (Returned l, set_llm l st)
            | Raised e => (Raised e, st)
            end
        | _ =>
            (* [not api_key]: the variable is unset or empty *)
            (Raised (py "GOOGLE_API_KEY environment variable is required"), st)
        end
    end.

Definition default_db_path : str :=
  py "C:/Users/sukru/projects/text-to-sql/data/chinook.db".

Definition init_database : M Database :=
  fun st =>
    match db st with
    | Some d => (Returned d, st)
    | None =>
        let db_path :=
          match getenv w (py "DATABASE_PATH") with
          | Some p => p
          | None => default_db_path
          end in
        match from_uri w (py "sqlite:///" ++ db_path) with
        | Returned d => (Returned d, set_db d st)
        | Raised e => (Raised e, st)
        end
    end.

Definition create_sql_chain : M Chain :=
  fun st =>
    match sql_chain st with
    | Some c => (Returned c, st)
    | None =>
        then_ init_llm
          (fun l st' =>
             match compose_chain w l with
             | Returned c => (Returned c, set_sql_chain c st')
             | Raised e => (Raised e, st')
             end) st
    end.

(** Check mark and cross mark of the two start-up lines. *)
Definition check_mark : char := 9989%N.
Definition cross_mark : char := 10060%N.

Definition startup_event : M unit :=
  fun st =>
    match then_ init_llm
            (fun _ => then_ init_database (fun _ => create_sql_chain)) st with
    | (Returned _, st') =>
        (Returned tt,
         print (check_mark :: py " Application initialized successfully!") st')
    | (Raised e, st') =>
        (Raised e,
         print (cross_mark :: py " Failed to initialize application: " ++ e) st')
    end.

(** The [/query] handler on the globals: it obtains the database and the
    chain through the initialisers, then answers as [process_query]
    does. *)
Definition process_query (upper_table : char -> str) (request : QueryRequest)
  : State -> (QueryResponse + HTTPException) * State :=
  fun st =>
    let '(got_db, st1) := init_database st in
    let '(got_chain, st2) :=
      match got_db with
      | Returned _ => create_sql_chain st1
      | Raised e => (Raised e, st1)
      end in
    (process_query upper_table (Build_Services got_db got_chain) request, st2).

End Components.

Arguments getenv {Llm} _ _.
Arguments ChatGoogleGenerativeAI {Llm} _ _.
Arguments from_uri {Llm} _ _.
Arguments compose_chain {Llm} _ _.
Arguments llm {Llm} _.
Arguments db {Llm} _.
Arguments sql_chain {Llm} _.
Arguments stdout {Llm} _.
Arguments initial {Llm}.
Arguments print {Llm} _ _.
Arguments set_llm {Llm} _ _.
Arguments set_db {Llm} _ _.
Arguments set_sql_chain {Llm} _ _.
Arguments init_llm {Llm} _ _.
Arguments init_database {Llm} _ _.
Arguments create_sql_chain {Llm} _ _.
Arguments startup_event {Llm} _ _.
Arguments process_query {Llm} _ _ _ _.

End Startup.

(** ** The chat client: calling the service and keeping the history *)

Module Frontend.

(** A value read from a JSON body or put in a dict.  Numbers, lists and
    objects are not told apart: only their truth value and their [str()]
    count here. *)
Inductive value : Type :=
| VNone
| VBool (b : bool)
| VStr (s : str)
| VOther (truth : bool) (shown : str).

(** The truth value of [v] in a condition. *)
Definition truth (v : value) : bool :=
  match v with
  | VNone => false
  | VBool b => b
  | VStr s => negb (mem_nil s)
  | VOther t _ => t
  end.

(** [str(v)], as an f-string shows it. *)
Definition to_str (v : value) : str :=
  match v with
  | VNone => py "None"
  | VBool true => py "True"
  | VBool false => py "False"
  | VStr s => s
  | VOther _ shown => shown
  end.

Fixpoint eqb_str (a b : str) : bool :=
  match a, b with
  | [], [] => true
  | x :: a', y :: b' => eqb_char x y && eqb_str a' b'
  | _, _ => false
  end.

(** A dict with string keys, as the list of its items. *)
Definition dict := list (str * value).

Fixpoint lookup (d : dict) (key : str) : option value :=
  match d with
  | [] => None
  | (k, v) :: d' => if eqb_str k key then Some v else lookup d' key
  end.

(** [d[key]]: raises [KeyError(key)], whose text is the key in quotes. *)
Definition getitem (d : dict) (key : str) : outcome value :=
  match lookup d key with
  | Some v => Returned v
  | None => Raised (py "'" ++ key ++ py "'")
  end.

(** [d.get(key, default)] *)
Definition get (d : dict) (key : str) (default : value) : value :=
  match lookup d key with
  | Some v => v
  | None => default
  end.

(** What a call into [requests] can raise, by the [except] clause that
    takes it. *)
Inductive raised : Type :=
| RequestException (msg : str)
| OtherException (msg : str).

Inductive attempt (A : Type) : Type :=
| Done (a : A)
| Failed (e : raised).
Arguments Done {A} a.
Arguments Failed {A} e.

(** An HTTP response: status, body text, and what [response.json()]
    gives: the items of the JSON object of the body (the service's
    bodies are objects), or an exception. *)
Record Response := {
  status_code : N;
  text : str;
  json : attempt dict
}.

(** [str(n)] for a status code. *)
Definition decimal (n : N) : str := py (NilZero.string_of_uint (N.to_uint n)).

Definition failure (message : str) : dict :=
  [(py "success", VBool false); (py "error", VStr message)].

Definition on_exception (e : raised) : dict :=
  match e with
  | RequestException msg => failure (py "Connection error: " ++ msg)
  | OtherException msg => failure (py "Unexpected error: " ++ msg)
  end.

(** [post question] stands for
    [requests.post(f"{API_URL}/query", json={"question": question}, timeout=30)]. *)
Definition query_backend (post : str -> attempt Response) (question : str) : dict :=
  match post question with
  | Done response =>
      if (status_code response =? 200)%N then
        match json response with
        | Done body => body
        | Failed e => on_exception e
        end
      else
        failure (py "Backend error: " ++ decimal (status_code response)
                   ++ py " - " ++ text response)
  | Failed e => on_exception e
  end.

(** A message of the chat history; a user message has no [sql] key. *)
Record Message := {
  role : str;
  content : value;
  sql : option value
}.

Definition cross_mark : char := 10060%N.

(** The part of [main] under [# Process user input]: one turn of the
    chat on the history [messages].  The drawing calls are left out; what
    is returned is the history afterwards and whether the turn ended with
    an exception (a [KeyError] of a dict access). *)
Definition process_user_input (post : str -> attempt Response)
    (messages : list Message) (user_input : option str)
  : outcome unit * list Message :=
  match user_input with
  | Some (c :: q) =>
      let user_input := c :: q in
      let messages :=
        messages ++ [{| role := py "user"; content := VStr user_input; sql := None |}] in
      let response := query_backend post user_input in
      match getitem response (py "success") with
      | Raised e => (Raised e, messages)
      | Returned ok =>
          if truth ok then
            match getitem response (py "result") with
            | Raised e => (Raised e, messages)
            | Returned shown =>
                (Returned tt,
                 messages ++ [{| role := py "assistant";
                                 content := shown;
                                 sql := Some (get response (py "sql_query") (VStr [])) |}])
            end
          else
            match getitem response (py "error") with
            | Raised e => (Raised e, messages)
            | Returned err =>
                let error_msg := cross_mark :: py " " ++ to_str err in
                (Returned tt,
                 messages ++ [{| role := py "assistant";
                                 content := VStr error_msg;
                                 sql := Some (get response (py "sql_query") (VStr [])) |}])
            end
      end
  | _ => (Returned tt, messages)
  end.

(** The JSON body of a [QueryResponse]: its four fields, an unset one as
    [null]. *)
Definition optional (o : option str) : value :=
  match o with
  | Some s => VStr s
  | None => VNone
  end.

Definition body_of (r : QueryResponse) : dict :=
  [(py "success", VBool (success r));
   (py "result", optional (result r));
   (py "sql_query", optional (sql_query r));
   (py "error", optional (error r))].

End Frontend.

(** ** Facts about the string primitives *)

Module PyStrFacts.

Lemma eqb_char_eq a b : eqb_char a b = true <-> a = b.
Proof. apply N.eqb_eq. Qed.

Lemma eqb_char_neq a b : eqb_char a b = false <-> a <> b.
Proof. apply N.eqb_neq. Qed.

Lemma eqb_char_refl a : eqb_char a a = true.
Proof. apply N.eqb_refl. Qed.

Lemma mem_In c s : mem c s = true <-> In c s.
Proof.
  unfold mem. rewrite existsb_exists. split.
  - intros (x & Hx & E). apply eqb_char_eq in E. now subst.
  - intro H. exists c. split; [exact H | apply eqb_char_refl].
Qed.

Lemma mem_not_In c s : mem c s = false <-> ~ In c s.
Proof.
  rewrite <- mem_In. destruct (mem c s); split; congruence.
Qed.

Lemma drop_prefix_eqb p s r :
  drop_prefix eqb_char p s = Some r <-> s = p ++ r.
Proof.
  revert s. induction p as [|a p IH]; intros s; simpl.
  - split; [intros [= ->] | intros ->]; reflexivity.
  - destruct s as [|c s].
    + split; discriminate.
    + destruct (eqb_char a c) eqn:E.
      * apply eqb_char_eq in E. subst c. rewrite IH.
        split; [intros -> | intros [= ->]]; reflexivity.
      * apply eqb_char_neq in E. split; [discriminate | intros [= ? _]; congruence].
Qed.

Lemma startswith_spec p s : startswith p s = true <-> exists r, s = p ++ r.
Proof.
  unfold startswith.
  destruct (drop_prefix eqb_char p s) as [r|] eqn:E.
  - apply drop_prefix_eqb in E. split; [eauto | reflexivity].
  - split; [discriminate|]. intros [r Hr].
    apply drop_prefix_eqb in Hr. congruence.
Qed.

(** [p] occurs in [s] as a contiguous run. *)
Definition infix (p s : str) : Prop := exists l r, s = l ++ p ++ r.

Lemma contains_spec p s : contains p s = true <-> infix p s.
Proof.
  induction s as [|c s IH].
  - simpl. rewrite orb_false_r, startswith_spec. split.
    + intros [r Hr]. exists [], r. exact Hr.
    + intros (l & r & H). destruct l; [|discriminate]. eauto.
  - simpl. rewrite orb_true_iff, startswith_spec, IH. split.
    + intros [[r Hr] | (l & r & H)].
      * exists [], r. exact Hr.
      * exists (c :: l), r. simpl. now f_equal.
    + intros ([|d l] & r & H).
      * left. eauto.
      * right. injection H as _ H. exists l, r. exact H.
Qed.

Lemma infix_refl s : infix s s.
Proof. exists [], []. now rewrite app_nil_r. Qed.

Lemma infix_trans a b c : infix a b -> infix b c -> infix a c.
Proof.
  intros (l1 & r1 & ->) (l2 & r2 & ->).
  exists (l2 ++ l1), (r1 ++ r2). now rewrite !app_assoc.
Qed.

Lemma infix_app_l a l : infix a (l ++ a).
Proof. exists l, []. now rewrite app_nil_r. Qed.

Lemma infix_app_r a r : infix a (a ++ r).
Proof. exists [], r. reflexivity. Qed.

Lemma infix_In p s c : infix p s -> In c p -> In c s.
Proof. intros (l & r & ->) H. rewrite !in_app_iff. tauto. Qed.

Lemma infix_length p s : infix p s -> length p <= length s.
Proof. intros (l & r & ->). rewrite !length_app. lia. Qed.

Lemma contains_false_infix p a s :
  infix a s -> contains p s = false -> contains p a = false.
Proof.
  intros Ha Hs. destruct (contains p a) eqn:E; [|reflexivity].
  apply contains_spec in E.
  assert (H : contains p s = true) by (apply contains_spec; eapply infix_trans; eauto).
  congruence.
Qed.

(** *** White space *)

Definition blank (w : str) : Prop := Forall (fun c => isspace c = true) w.

Lemma lstrip_blank w s : blank w -> lstrip (w ++ s) = lstrip s.
Proof. induction 1 as [|c w Hc _ IH]; simpl; [reflexivity|]. now rewrite Hc. Qed.

Lemma lstrip_cons_nonspace c s : isspace c = false -> lstrip (c :: s) = c :: s.
Proof. intro H. simpl. now rewrite H. Qed.

Lemma lstrip_app_nonspace a c b :
  isspace c = false -> lstrip (a ++ c :: b) = lstrip a ++ c :: b.
Proof.
  intro Hc. induction a as [|x a IH]; simpl.
  - now rewrite Hc.
  - destruct (isspace x); [exact IH | reflexivity].
Qed.

(** [lstrip] removes a run of white space from the front, nothing else. *)
Lemma lstrip_split s : exists w, blank w /\ s = w ++ lstrip s.
Proof.
  induction s as [|c s (w & Hw & E)]; simpl.
  - exists []. split; [constructor | reflexivity].
  - destruct (isspace c) eqn:Hc.
    + exists (c :: w). split; [now constructor | simpl; now f_equal].
    + exists []. split; [constructor | reflexivity].
Qed.

Lemma lstrip_head s : lstrip s = [] \/ exists c t, lstrip s = c :: t /\ isspace c = false.
Proof.
  induction s as [|c s IH]; simpl; [now left|].
  destruct (isspace c) eqn:Hc; [exact IH | right; eauto].
Qed.

Lemma lstrip_idem s : lstrip (lstrip s) = lstrip s.
Proof.
  destruct (lstrip_head s) as [-> | (c & t & -> & Hc)]; [reflexivity|].
  now apply lstrip_cons_nonspace.
Qed.

Lemma lstrip_infix s : infix (lstrip s) s.
Proof. destruct (lstrip_split s) as (w & _ & E). rewrite E at 2. apply infix_app_l. Qed.

Lemma rstrip_cons_nonspace c s : isspace c = false -> rstrip (c :: s) = c :: rstrip s.
Proof. intro H. simpl. rewrite H. now destruct (rstrip s). Qed.

Lemma rstrip_app_nonspace a c b :
  isspace c = false -> rstrip (a ++ c :: b) = a ++ c :: rstrip b.
Proof.
  intro Hc. induction a as [|x a IH].
  - now apply rstrip_cons_nonspace.
  - change (rstrip ((x :: a) ++ c :: b))
      with (match rstrip (a ++ c :: b) with
            | [] => if isspace x then [] else [x]
            | t' => x :: t'
            end).
    rewrite IH. destruct a; reflexivity.
Qed.

Lemma rstrip_blank w : blank w -> rstrip w = [].
Proof. induction 1 as [|c w Hc _ IH]; simpl; [reflexivity|]. now rewrite IH, Hc. Qed.

(** [rstrip] removes a run of white space from the back, nothing else. *)
Lemma rstrip_split s : exists w, blank w /\ s = rstrip s ++ w.
Proof.
  induction s as [|c s (w & Hw & E)]; simpl.
  - exists []. split; [constructor | reflexivity].
  - destruct (rstrip s) as [|d t] eqn:R.
    + destruct (isspace c) eqn:Hc.
      * exists (c :: w). simpl in E. subst s. split; [now constructor | reflexivity].
      * exists w. split; [exact Hw | simpl in *; now f_equal].
    + exists w. split; [exact Hw|]. simpl. now f_equal.
Qed.

Lemma rstrip_infix s : infix (rstrip s) s.
Proof. destruct (rstrip_split s) as (w & _ & E). rewrite E at 2. apply infix_app_r. Qed.

Lemma rstrip_idem s : rstrip (rstrip s) = rstrip s.
Proof.
  induction s as [|c s IH]; simpl; [reflexivity|].
  destruct (rstrip s) as [|d t] eqn:R.
  - destruct (isspace c) eqn:Hc; simpl; [reflexivity | now rewrite Hc].
  - change (rstrip (c :: d :: t))
      with (match rstrip (d :: t) with
            | [] => if isspace c then [] else [c]
            | t' => c :: t'
            end).
    now rewrite IH.
Qed.

Lemma strip_infix s : infix (strip s) s.
Proof. eapply infix_trans; [apply rstrip_infix | apply lstrip_infix]. Qed.

(** A stripped string is empty or begins and ends with a character that
    is not white space. *)
Lemma strip_head s :
  strip s = [] \/ exists c t, strip s = c :: rstrip t /\ isspace c = false.
Proof.
  unfold strip. destruct (lstrip_head s) as [-> | (c & t & -> & Hc)]; [now left|].
  right. exists c, t. split; [now apply rstrip_cons_nonspace | exact Hc].
Qed.

Lemma strip_idem s : strip (strip s) = strip s.
Proof.
  destruct (strip_head s) as [-> | (c & t & -> & Hc)]; [reflexivity|].
  unfold strip. rewrite lstrip_cons_nonspace by exact Hc.
  rewrite rstrip_cons_nonspace by exact Hc. now rewrite rstrip_idem.
Qed.

Lemma strip_app_nonspace a c b :
  isspace c = false -> strip (a ++ c :: b) = lstrip a ++ c :: rstrip b.
Proof.
  intro Hc. unfold strip. rewrite lstrip_app_nonspace by exact Hc.
  now apply rstrip_app_nonspace.
Qed.

Lemma strip_app_last a c : isspace c = false -> strip (a ++ [c]) = lstrip a ++ [c].
Proof. intro Hc. now rewrite strip_app_nonspace. Qed.

Lemma strip_blank w : blank w -> strip w = [].
Proof.
  intro Hw. unfold strip.
  replace (lstrip w) with (lstrip (w ++ [])) by now rewrite app_nil_r.
  now rewrite lstrip_blank.
Qed.

Lemma strip_nil_blank s : strip s = [] -> blank s.
Proof.
  intro H. destruct (lstrip_split s) as (w & Hw & E).
  destruct (rstrip_split (lstrip s)) as (w' & Hw' & E').
  fold (strip s) in E'. rewrite H in E'. simpl in E'.
  rewrite E, E'. apply Forall_app. now split.
Qed.

Lemma infix_length_eq a s : infix a s -> length s <= length a -> a = s.
Proof.
  intros (l & r & ->) H. rewrite !length_app in H.
  destruct l; [|simpl in H; lia]. destruct r; [|simpl in H; lia].
  simpl. now rewrite app_nil_r.
Qed.

(** *** Splitting at a character *)

Lemma split_head_app c a b : ~ In c a -> split_head c (a ++ c :: b) = a.
Proof.
  induction a as [|x a IH]; simpl; intro H.
  - now rewrite eqb_char_refl.
  - destruct (eqb_char c x) eqn:E.
    + apply eqb_char_eq in E. subst x. tauto.
    + f_equal. apply IH. tauto.
Qed.

Lemma split_head_not_In c s : ~ In c (split_head c s).
Proof.
  induction s as [|x s IH]; simpl; [tauto|].
  destruct (eqb_char c x) eqn:E; simpl; [tauto|].
  apply eqb_char_neq in E. intros [H|H]; [congruence | tauto].
Qed.

(** A string holding [c] splits at the first [c]. *)
Lemma first_occurrence (c : char) (s : str) :
  In c s -> exists a b, s = a ++ c :: b /\ ~ In c a.
Proof.
  induction s as [|x s IH]; simpl; [tauto|]. intro H.
  destruct (N.eq_dec x c) as [->|N].
  - exists [], s. split; [reflexivity | simpl; tauto].
  - destruct IH as (a & b & -> & Ha); [tauto|].
    exists (x :: a), b. split; [reflexivity | simpl; tauto].
Qed.

End PyStrFacts.

Import PyStrFacts.

(** ** Facts about the regular expressions *)

Module ReFacts.

Lemma match_fence_spec tag s r :
  match_fence tag s = Some r <->
  exists body, s = fence tag ++ body /\ r = skip_newline body.
Proof.
  unfold match_fence.
  destruct (drop_prefix eqb_char (fence tag) s) as [body|] eqn:E; cbn [option_map].
  - apply drop_prefix_eqb in E. split.
    + intros [= <-]. exists body. split; [exact E | reflexivity].
    + intros (body' & H & ->). rewrite E in H.
      apply (app_inv_head (fence tag)) in H. now subst.
  - split; [discriminate|]. intros (body & H & _).
    apply drop_prefix_eqb in H. congruence.
Qed.

Lemma match_fence_nonbacktick tag c t :
  c <> backtick -> match_fence tag (c :: t) = None.
Proof.
  intro H. destruct (match_fence tag (c :: t)) as [r|] eqn:E; [|reflexivity].
  apply match_fence_spec in E. destruct E as (body & E & _).
  injection E as -> _. congruence.
Qed.

(** The induction that follows the scan of [sub_fence]. *)
Lemma sub_fence_scan_ind (tag : str) (P : str -> str -> Prop) :
  P [] [] ->
  (forall c t r, match_fence tag (c :: t) = Some r ->
                 P r (sub_fence tag r) -> P (c :: t) (sub_fence tag r)) ->
  (forall c t, match_fence tag (c :: t) = None ->
               P t (sub_fence tag t) -> P (c :: t) (c :: sub_fence tag t)) ->
  forall s, P s (sub_fence tag s).
Proof.
  intros Hnil Hmatch Hkeep s.
  induction s as [s IH] using (induction_ltof1 _ (@length char)).
  unfold ltof in IH. destruct s as [|c t].
  - rewrite sub_fence_equation_1. exact Hnil.
  - rewrite sub_fence_cons.
    destruct (match_fence tag (c :: t)) as [r|] eqn:E.
    + apply Hmatch; [exact E|]. apply IH. now apply match_fence_shorter in E.
    + apply Hkeep; [exact E|]. apply IH. simpl; lia.
Qed.

Lemma skip_newline_In c s : In c (skip_newline s) -> In c s.
Proof.
  destruct s as [|d t]; simpl; [tauto|].
  destruct (eqb_char d newline); simpl; tauto.
Qed.

(** The substitution keeps characters of the input, in their order; it
    adds none. *)
Lemma sub_fence_In tag c s : In c (sub_fence tag s) -> In c s.
Proof.
  revert c. pattern s, (sub_fence tag s). apply sub_fence_scan_ind; clear s.
  - tauto.
  - intros d t r E IH c H. apply match_fence_spec in E.
    destruct E as (body & -> & ->).
    apply in_or_app. right. apply skip_newline_In. now apply IH.
  - intros d t _ IH c [H|H]; [now left | right; now apply IH].
Qed.

Lemma sub_fence_length tag s : length (sub_fence tag s) <= length s.
Proof.
  pattern s, (sub_fence tag s). apply sub_fence_scan_ind; clear s.
  - reflexivity.
  - intros c t r E IH. apply match_fence_shorter in E. lia.
  - intros c t _ IH. simpl. lia.
Qed.

(** Where no fence marker occurs nothing is removed. *)
Lemma sub_fence_no_fence tag s :
  contains (fence []) s = false -> sub_fence tag s = s.
Proof.
  induction s as [|c t IH]; intro H.
  - apply sub_fence_equation_1.
  - rewrite sub_fence_cons.
    simpl in H. apply orb_false_iff in H. destruct H as [H1 H2].
    destruct (match_fence tag (c :: t)) as [r|] eqn:E.
    + apply match_fence_spec in E. destruct E as (body & E & _).
      assert (S : startswith (fence []) (c :: t) = true).
      { apply startswith_spec. exists (tag ++ body). rewrite E. reflexivity. }
      congruence.
    + f_equal. apply IH. exact H2.
Qed.

(** What the scan leaves at the front was at the front of the input. *)
Lemma sub_fence_head1 tag s o :
  sub_fence tag s = backtick :: o -> exists t, s = backtick :: t.
Proof.
  destruct s as [|c t]; [rewrite sub_fence_equation_1; discriminate|].
  rewrite sub_fence_cons.
  destruct (match_fence tag (c :: t)) as [r|] eqn:E.
  - intros _. apply match_fence_spec in E. destruct E as (body & E & _).
    injection E as -> _. eauto.
  - intros [= -> _]. eauto.
Qed.

Lemma sub_fence_head2 tag s o :
  sub_fence tag s = backtick :: backtick :: o ->
  exists t, s = backtick :: backtick :: t.
Proof.
  destruct s as [|c t]; [rewrite sub_fence_equation_1; discriminate|].
  rewrite sub_fence_cons.
  destruct (match_fence tag (c :: t)) as [r|] eqn:E.
  - intros _. apply match_fence_spec in E. destruct E as (body & E & _).
    injection E as -> ->. eauto.
  - intros [= -> H]. apply sub_fence_head1 in H. destruct H as [t' ->]. eauto.
Qed.

(** After [re.sub(r'```\n?', '', s)] no run of three backticks is left. *)
Lemma sub_fence_removes_fences s :
  contains (fence []) (sub_fence [] s) = false.
Proof.
  pattern s, (sub_fence [] s). apply sub_fence_scan_ind; clear s.
  - reflexivity.
  - intros c t r _ IH. exact IH.
  - intros c t E IH. simpl. rewrite IH, orb_false_r.
    destruct (startswith (fence []) (c :: sub_fence [] t)) eqn:S; [|reflexivity].
    apply startswith_spec in S. destruct S as [o S]. simpl in S.
    injection S as -> S. apply sub_fence_head2 in S. destruct S as [t' ->].
    assert (M : match_fence [] (backtick :: backtick :: backtick :: t')
                = Some (skip_newline t')).
    { apply match_fence_spec. exists t'. split; reflexivity. }
    congruence.
Qed.

(** A character [d] that no pattern character accepts stops a match
    attempt: the attempt on [a ++ d :: b] is the attempt on [a]. *)
Lemma drop_prefix_stop eqc p d a b :
  (forall x, In x p -> eqc x d = false) ->
  drop_prefix eqc p (a ++ d :: b) =
  option_map (fun r => r ++ d :: b) (drop_prefix eqc p a).
Proof.
  intro Hd. revert a. induction p as [|x p IH]; intro a.
  - reflexivity.
  - destruct a as [|c a]; simpl.
    + rewrite Hd by now left. reflexivity.
    + destruct (eqc x c); [|reflexivity]. apply IH.
      intros y Hy. apply Hd. now right.
Qed.

Lemma skip_newline_stop d a b :
  d <> newline -> skip_newline (a ++ d :: b) = skip_newline a ++ d :: b.
Proof.
  intro H. destruct a as [|c a]; simpl.
  - destruct (eqb_char d newline) eqn:E; [|reflexivity].
    apply eqb_char_eq in E. congruence.
  - destruct (eqb_char c newline); reflexivity.
Qed.

Lemma match_fence_stop tag d a b :
  ~ In d (fence tag) -> d <> newline ->
  match_fence tag (a ++ d :: b) =
  option_map (fun r => r ++ d :: b) (match_fence tag a).
Proof.
  intros Hd Hn. unfold match_fence. rewrite drop_prefix_stop.
  - destruct (drop_prefix eqb_char (fence tag) a) as [r|]; simpl; [|reflexivity].
    now rewrite skip_newline_stop.
  - intros x Hx. apply eqb_char_neq. intros ->. contradiction.
Qed.

(** The scan works on both sides of such a character separately. *)
Lemma sub_fence_stop tag d a b :
  ~ In d (fence tag) -> d <> newline ->
  sub_fence tag (a ++ d :: b) = sub_fence tag a ++ d :: sub_fence tag b.
Proof.
  intros Hd Hn. pattern a, (sub_fence tag a). apply sub_fence_scan_ind; clear a.
  - simpl. rewrite sub_fence_cons, match_fence_nonbacktick; [reflexivity|].
    intros ->. apply Hd. now left.
  - intros c t r E IH.
    change ((c :: t) ++ d :: b) with (c :: (t ++ d :: b)).
    rewrite sub_fence_cons.
    change (c :: (t ++ d :: b)) with ((c :: t) ++ d :: b).
    rewrite match_fence_stop, E by assumption. exact IH.
  - intros c t E IH.
    change ((c :: t) ++ d :: b) with (c :: (t ++ d :: b)).
    rewrite sub_fence_cons.
    change (c :: (t ++ d :: b)) with ((c :: t) ++ d :: b) at 1.
    rewrite match_fence_stop, E by assumption. simpl. now rewrite IH.
Qed.

(** A prefix without backticks is left in place. *)
Lemma sub_fence_plain_prefix tag l r :
  ~ In backtick l -> sub_fence tag (l ++ r) = l ++ sub_fence tag r.
Proof.
  induction l as [|c l IH]; intro H; [reflexivity|].
  simpl. rewrite sub_fence_cons, match_fence_nonbacktick.
  - f_equal. apply IH. simpl in H. tauto.
  - intros ->. apply H. now left.
Qed.

(** *** The label pattern *)

Lemma drop_prefix_split eqc p s r :
  drop_prefix eqc p s = Some r ->
  exists l, s = l ++ r /\ length l = length p.
Proof.
  revert s. induction p as [|x p IH]; intros s; simpl.
  - intros [= ->]. exists []. split; reflexivity.
  - destruct s as [|c s]; [discriminate|].
    destruct (eqc x c); [|discriminate].
    intro H. apply IH in H. destruct H as (l & -> & Hl).
    exists (c :: l). split; [reflexivity | simpl; now f_equal].
Qed.

Lemma match_alternatives_split alts s r :
  match_alternatives alts s = Some r ->
  exists alt l, In alt alts /\ s = l ++ r /\ length l = length alt.
Proof.
  induction alts as [|a alts IH]; simpl; [discriminate|].
  destruct (drop_prefix matches_icase a s) as [r'|] eqn:E.
  - intros [= ->]. apply drop_prefix_split in E. destruct E as (l & -> & Hl).
    exists a, l. tauto.
  - intro H. apply IH in H. destruct H as (alt & l & Hin & -> & Hl).
    exists alt, l. tauto.
Qed.

(** A label match removes at least the four characters of the shortest
    label. *)
Lemma match_label_shorter s r : match_label s = Some r -> length r < length s.
Proof.
  unfold match_label.
  destruct (match_alternatives label_alternatives s) as [r0|] eqn:E; [|discriminate].
  intros [= <-]. apply match_alternatives_split in E.
  destruct E as (alt & l & Hin & -> & Hl).
  pose proof (infix_length _ _ (lstrip_infix r0)) as Hr.
  rewrite length_app, Hl.
  assert (0 < length alt).
  { unfold label_alternatives in Hin. simpl in Hin.
    destruct Hin as [<-|[<-|[<-|[]]]]; simpl; lia. }
  lia.
Qed.

(** What [sub_label] returns is the end of its input. *)
Lemma sub_label_infix s : infix (sub_label s) s.
Proof.
  unfold sub_label, match_label.
  destruct (match_alternatives label_alternatives s) as [r0|] eqn:E; simpl.
  - apply match_alternatives_split in E. destruct E as (alt & l & _ & -> & _).
    eapply infix_trans; [apply lstrip_infix | apply infix_app_l].
  - apply infix_refl.
Qed.

(** A character that no label character accepts and that is not white
    space. *)
Definition label_stop (d : char) : Prop :=
  isspace d = false /\
  forall alt x, In alt label_alternatives -> In x alt -> matches_icase x d = false.

Lemma match_alternatives_stop alts d a b :
  (forall alt x, In alt alts -> In x alt -> matches_icase x d = false) ->
  match_alternatives alts (a ++ d :: b) =
  option_map (fun r => r ++ d :: b) (match_alternatives alts a).
Proof.
  induction alts as [|alt alts IH]; intro H; simpl; [reflexivity|].
  rewrite drop_prefix_stop by (intros x Hx; apply (H alt); [now left | exact Hx]).
  destruct (drop_prefix matches_icase alt a); simpl; [reflexivity|].
  apply IH. intros alt' x Ha Hx. apply (H alt'); [now right | exact Hx].
Qed.

Lemma sub_label_stop d a b :
  label_stop d -> sub_label (a ++ d :: b) = sub_label a ++ d :: b.
Proof.
  intros [Hs Hd]. unfold sub_label, match_label.
  rewrite match_alternatives_stop by exact Hd.
  destruct (match_alternatives label_alternatives a) as [r|]; simpl; [|reflexivity].
  now apply lstrip_app_nonspace.
Qed.

(** *** Labels in any letter case *)

(** [l] spells one of the three labels, up to the case of its letters. *)
Definition label_in_any_case (l : str) : Prop :=
  exists alt, In alt label_alternatives /\ map ascii_lower l = map ascii_lower alt.

Lemma ascii_lower_inv c p :
  ascii_lower c = p ->
  c = p \/ (c = (p - 32)%N /\ (97 <= p <= 122)%N).
Proof.
  unfold ascii_lower, is_ascii_upper.
  destruct (65 <=? c)%N eqn:A; destruct (c <=? 90)%N eqn:B; simpl; intros <-;
    try (now left).
  apply N.leb_le in A, B. right. lia.
Qed.

Lemma matches_icase_same_letter p c :
  ascii_lower c = ascii_lower p -> matches_icase p c = true.
Proof.
  intro H. unfold matches_icase. cbv zeta.
  apply ascii_lower_inv in H. destruct H as [-> | [-> Hp]].
  - now rewrite eqb_char_refl.
  - assert (E : ascii_upper (ascii_lower p) = (ascii_lower p - 32)%N).
    { unfold ascii_upper, is_ascii_lower.
      destruct Hp as [A B]. apply N.leb_le in A, B. now rewrite A, B. }
    rewrite E, eqb_char_refl, orb_true_r. reflexivity.
Qed.

Lemma drop_prefix_same_letters alt l r :
  map ascii_lower l = map ascii_lower alt ->
  drop_prefix matches_icase alt (l ++ r) = Some r.
Proof.
  revert l. induction alt as [|p alt IH]; intros [|c l]; simpl; try discriminate.
  - reflexivity.
  - intros [= H1 H2]. rewrite matches_icase_same_letter by exact H1. now apply IH.
Qed.

End ReFacts.

Import ReFacts.

(** ** The SQL extractor: shared lemmas *)

Lemma semicolon_nonspace : isspace semicolon = false.
Proof. reflexivity. Qed.

Lemma semicolon_not_newline : semicolon <> newline.
Proof. discriminate. Qed.

Lemma semicolon_not_in_fence_sql : ~ In semicolon (fence (py "sql")).
Proof. apply mem_not_In. reflexivity. Qed.

Lemma semicolon_not_in_fence : ~ In semicolon (fence []).
Proof. apply mem_not_In. reflexivity. Qed.

Lemma semicolon_label_stop : label_stop semicolon.
Proof.
  split; [reflexivity|]. intros alt x Ha Hx.
  assert (H : forallb (fun alt => forallb (fun x => negb (matches_icase x semicolon)) alt)
                label_alternatives = true) by reflexivity.
  rewrite forallb_forall in H. specialize (H alt Ha).
  rewrite forallb_forall in H. specialize (H x Hx).
  now apply negb_true_iff in H.
Qed.

(** White space, fence and label stripping work on the two sides of a
    semicolon separately. *)
Lemma strip_markup_at_semicolon a b :
  strip_markup (a ++ semicolon :: b) =
  sub_label (sub_fence [] (sub_fence (py "sql") (lstrip a)))
    ++ semicolon :: sub_fence [] (sub_fence (py "sql") (rstrip b)).
Proof.
  unfold strip_markup.
  rewrite strip_app_nonspace by apply semicolon_nonspace.
  rewrite sub_fence_stop
    by (apply semicolon_not_in_fence_sql || apply semicolon_not_newline).
  rewrite sub_fence_stop
    by (apply semicolon_not_in_fence || apply semicolon_not_newline).
  apply sub_label_stop, semicolon_label_stop.
Qed.

(** The stripping steps add no character. *)
Lemma strip_markup_head_In c a :
  In c (sub_label (sub_fence [] (sub_fence (py "sql") (lstrip a)))) -> In c a.
Proof.
  intro H. apply (infix_In _ _ _ (sub_label_infix _)) in H.
  apply sub_fence_In, sub_fence_In in H.
  exact (infix_In _ _ _ (lstrip_infix a) H).
Qed.

Lemma strip_markup_In c s : In c (strip_markup s) -> In c s.
Proof.
  unfold strip_markup. intro H. apply (infix_In _ _ _ (sub_label_infix _)) in H.
  apply sub_fence_In, sub_fence_In in H.
  exact (infix_In _ _ _ (strip_infix s) H).
Qed.

(** They neither add nor remove a semicolon. *)
Lemma strip_markup_semicolon s :
  In semicolon (strip_markup s) <-> In semicolon s.
Proof.
  split; [apply strip_markup_In|]. intro H.
  apply first_occurrence in H. destruct H as (a & b & -> & _).
  rewrite strip_markup_at_semicolon. apply in_or_app. right. now left.
Qed.

Lemma truncate_at_semicolon_app a b :
  ~ In semicolon a ->
  truncate_at_semicolon (a ++ semicolon :: b) = a ++ [semicolon].
Proof.
  intro H. unfold truncate_at_semicolon.
  assert (M : mem semicolon (a ++ semicolon :: b) = true).
  { apply mem_In, in_or_app. right. now left. }
  rewrite M. now rewrite split_head_app.
Qed.

Lemma truncate_at_semicolon_none s :
  ~ In semicolon s -> truncate_at_semicolon s = s.
Proof.
  intro H. unfold truncate_at_semicolon.
  apply mem_not_In in H. now rewrite H.
Qed.

(** What truncation returns is the beginning of its input. *)
Lemma truncate_at_semicolon_infix s : infix (truncate_at_semicolon s) s.
Proof.
  destruct (in_dec N.eq_dec semicolon s) as [H|H].
  - apply first_occurrence in H. destruct H as (a & b & -> & Ha).
    rewrite truncate_at_semicolon_app by exact Ha.
    exists [], b. simpl. now rewrite <- app_assoc.
  - rewrite truncate_at_semicolon_none by exact H. apply infix_refl.
Qed.

(** The extractor on a text with a semicolon: only the text [a] before the
    first semicolon counts. *)
Lemma clean_sql_query_at_semicolon a b :
  ~ In semicolon a ->
  clean_sql_query (a ++ semicolon :: b) =
  lstrip (sub_label (sub_fence [] (sub_fence (py "sql") (lstrip a))))
    ++ [semicolon].
Proof.
  intro Ha. unfold clean_sql_query. cbv zeta.
  rewrite strip_markup_at_semicolon.
  rewrite truncate_at_semicolon_app
    by (intro H; apply Ha; now apply strip_markup_head_In).
  apply strip_app_last, semicolon_nonspace.
Qed.

(** The output is cut out of the text left by the second fence removal. *)
Lemma clean_sql_query_infix s :
  infix (clean_sql_query s)
        (sub_fence [] (sub_fence (py "sql") (strip s))).
Proof.
  unfold clean_sql_query, strip_markup. cbv zeta.
  eapply infix_trans; [apply strip_infix|].
  eapply infix_trans; [apply truncate_at_semicolon_infix|].
  apply sub_label_infix.
Qed.

Lemma clean_sql_query_no_fence s :
  contains (fence []) (clean_sql_query s) = false.
Proof.
  eapply contains_false_infix; [apply clean_sql_query_infix|].
  apply sub_fence_removes_fences.
Qed.

Lemma clean_sql_query_stripped s : strip (clean_sql_query s) = clean_sql_query s.
Proof. unfold clean_sql_query. cbv zeta. apply strip_idem. Qed.

(** The output has no semicolon, or one semicolon, at its end. *)
Lemma clean_sql_query_shape s :
  (~ In semicolon s /\ ~ In semicolon (clean_sql_query s)) \/
  (In semicolon s /\
   exists p, clean_sql_query s = p ++ [semicolon] /\ ~ In semicolon p).
Proof.
  destruct (in_dec N.eq_dec semicolon s) as [H|H].
  - right. split; [exact H|].
    apply first_occurrence in H. destruct H as (a & b & -> & Ha).
    rewrite clean_sql_query_at_semicolon by exact Ha.
    eexists. split; [reflexivity|].
    intro H. apply (infix_In _ _ _ (lstrip_infix _)) in H.
    apply Ha. now apply strip_markup_head_In.
  - left. split; [exact H|]. intro H'. apply H.
    apply strip_markup_In.
    apply (infix_In _ _ _ (truncate_at_semicolon_infix _)).
    exact (infix_In _ _ _ (strip_infix _) H').
Qed.

Lemma truncate_at_semicolon_clean s :
  truncate_at_semicolon (clean_sql_query s) = clean_sql_query s.
Proof.
  destruct (clean_sql_query_shape s) as [[_ H] | [_ (p & E & Hp)]].
  - now apply truncate_at_semicolon_none.
  - rewrite E. now apply truncate_at_semicolon_app.
Qed.

Lemma truncate_at_semicolon_length s :
  length (truncate_at_semicolon s) <= length s.
Proof. apply infix_length, truncate_at_semicolon_infix. Qed.

Lemma strip_length s : length (strip s) <= length s.
Proof. apply infix_length, strip_infix. Qed.

(** *** Inputs that begin with a label *)

Ltac spell_out l E :=
  repeat (destruct l as [|?c l]; [discriminate E|];
          simpl in E;
          let H := fresh "L" in
          injection E as H E);
  destruct l; [clear E|discriminate E].

Ltac letter_cases :=
  repeat match goal with
         | H : ascii_lower ?c = _ |- _ =>
             apply ascii_lower_inv in H;
             destruct H as [H | [H ?]]; [subst c | try lia; subst c]
         end.

(** A label in any letter case begins and ends with a character that is
    not white space, holds no backtick, and is matched whole by the label
    pattern. *)
Lemma label_in_any_case_shape l :
  label_in_any_case l ->
  (exists c l', l = c :: l' /\ isspace c = false) /\
  (exists l' z, l = l' ++ [z] /\ isspace z = false) /\
  ~ In backtick l /\
  forall y, match_alternatives label_alternatives (l ++ y) = Some y.
Proof.
  intros (alt & Hin & E).
  assert (M : forall y, match_alternatives label_alternatives (l ++ y) = Some y).
  { intro y. unfold label_alternatives in *. simpl in Hin.
    destruct Hin as [<-|[<-|[<-|[]]]].
    - cbn [match_alternatives].
      rewrite drop_prefix_same_letters by exact E. reflexivity.
    - cbn [match_alternatives].
      rewrite (drop_prefix_same_letters (py "Query:")) by exact E.
      destruct l as [|c l]; [discriminate E|].
      injection E as E _. letter_cases; reflexivity.
    - cbn [match_alternatives].
      rewrite (drop_prefix_same_letters (py "SQL:")) by exact E.
      remember (map ascii_lower (py "SQL:")) as k eqn:K. vm_compute in K. subst k.
      spell_out l E.
      assert (c2 = 58%N) as -> by (letter_cases; reflexivity).
      assert (Q : matches_icase 81%N c = false) by (letter_cases; reflexivity).
      change (py "Query:") with (81%N :: py "uery:").
      change (py "SQL Query:") with (83%N :: 81%N :: 76%N :: 32%N :: py "Query:").
      cbn [app drop_prefix]. rewrite Q.
      destruct (matches_icase 83%N c), (matches_icase 81%N c0),
        (matches_icase 76%N c1); reflexivity. }
  unfold label_alternatives in Hin. simpl in Hin.
  remember (map ascii_lower alt) as k eqn:K.
  destruct Hin as [<-|[<-|[<-|[]]]]; vm_compute in K; subst k; spell_out l E.
  all: repeat split; try exact M.
  all: try (eexists _, _; split; [reflexivity | letter_cases; reflexivity]).
  all: try (match goal with
            | |- exists l' z, ?c :: ?t = _ /\ _ =>
                exists (removelast (c :: t)), 58%N
            end;
            assert (L58 : forall x, ascii_lower x = 58%N -> x = 58%N)
              by (intros x Hx; apply ascii_lower_inv in Hx; lia);
            repeat match goal with
                   | H : ascii_lower _ = 58%N |- _ => apply L58 in H; subst
                   end;
            split; reflexivity).
  all: intro B; simpl in B;
    repeat match goal with
           | H : _ \/ _ |- _ => destruct H as [H|H]
           | H : False |- _ => destruct H
           end; subst;
    match goal with
    | H : ascii_lower backtick = _ |- _ => vm_compute in H; discriminate H
    end.
Qed.

(** ** The SQL extractor: the specified properties *)

(** C2: when the input holds a semicolon, everything after the first
    semicolon is discarded and the terminator is re-appended: with [a] the
    text before the first semicolon, the output is [a] after white space,
    fence and label stripping, followed by [;], whatever the text [b]
    after the semicolon is. *)
Theorem clean_sql_query_truncates (a b : str) :
  ~ In semicolon a ->
  clean_sql_query (a ++ semicolon :: b) =
  lstrip (sub_label (sub_fence [] (sub_fence (py "sql") (lstrip a))))
    ++ [semicolon].
Proof. apply clean_sql_query_at_semicolon. Qed.

(** The example of the specification: the trailing note is dropped. *)
Lemma clean_sql_query_truncates_example :
  ~ In semicolon (py "SELECT 1") /\
  clean_sql_query (py "SELECT 1; -- note: this does X") = py "SELECT 1;".
Proof.
  assert (H : ~ In semicolon (py "SELECT 1")).
  { intro H. apply mem_In in H. vm_compute in H. discriminate H. }
  split; [exact H|].
  refine (eq_trans
            (clean_sql_query_truncates (py "SELECT 1") (py " -- note: this does X") H)
            _).
  vm_compute. reflexivity.
Defined.

(** C5: the output holds no code-fence marker, for every raw model output
    (so also for those holding a fenced code block, with or without a
    language tag). *)
Theorem clean_sql_query_no_fence_markers (sql_response : str) :
  contains (py "```") (clean_sql_query sql_response) = false.
Proof. apply clean_sql_query_no_fence. Qed.

(** C9: when no semicolon is present after white space, fence and label
    stripping, that text is returned (trimmed) and no semicolon is
    appended. *)
Theorem clean_sql_query_unterminated (sql_response : str) :
  ~ In semicolon (strip_markup sql_response) ->
  clean_sql_query sql_response = strip (strip_markup sql_response) /\
  ~ In semicolon (clean_sql_query sql_response).
Proof.
  intro H. unfold clean_sql_query. cbv zeta.
  rewrite truncate_at_semicolon_none by exact H.
  split; [reflexivity|].
  intro H'. apply H. exact (infix_In _ _ _ (strip_infix _) H').
Qed.

Lemma clean_sql_query_unterminated_example :
  ~ In semicolon (strip_markup (py "```sql
SELECT 1
```")) /\
  clean_sql_query (py "```sql
SELECT 1
```") = py "SELECT 1".
Proof.
  assert (H : ~ In semicolon (strip_markup (py "```sql
SELECT 1
```"))).
  { intro H. apply mem_In in H. vm_compute in H. discriminate H. }
  split; [exact H|].
  refine (eq_trans (proj1 (clean_sql_query_unterminated _ H)) _).
  vm_compute. reflexivity.
Defined.

(** C10: when the input holds at least one semicolon, the output holds
    exactly one, as its final character. *)
Theorem clean_sql_query_single_statement (sql_response : str) :
  In semicolon sql_response ->
  exists p, clean_sql_query sql_response = p ++ [semicolon] /\ ~ In semicolon p.
Proof.
  intro H. destruct (clean_sql_query_shape sql_response) as [[N _] | [_ E]].
  - contradiction.
  - exact E.
Qed.

Lemma clean_sql_query_single_statement_example :
  In semicolon (py "SELECT 1; DROP TABLE t;") /\
  exists p, clean_sql_query (py "SELECT 1; DROP TABLE t;") = p ++ [semicolon]
            /\ ~ In semicolon p.
Proof.
  assert (H : In semicolon (py "SELECT 1; DROP TABLE t;")).
  { apply mem_In. vm_compute. reflexivity. }
  split; [exact H|].
  exact (clean_sql_query_single_statement (py "SELECT 1; DROP TABLE t;") H).
Defined.

(** C6, as stated, fails: the label pattern is anchored and applied once,
    so a second label comes to the front of the output and is removed by
    the next application. *)
Lemma clean_sql_query_not_idempotent :
  clean_sql_query (clean_sql_query (py "SQL: SQL: SELECT 1;"))
  <> clean_sql_query (py "SQL: SQL: SELECT 1;").
Proof. vm_compute. discriminate. Qed.

(** C6, amended: cleaning a cleaned text again changes nothing exactly
    when the cleaned text does not itself begin with a label. *)
Theorem clean_sql_query_idempotent_iff (sql_response : str) :
  clean_sql_query (clean_sql_query sql_response) = clean_sql_query sql_response
  <-> match_label (clean_sql_query sql_response) = None.
Proof.
  set (o := clean_sql_query sql_response).
  assert (E : clean_sql_query o = strip (truncate_at_semicolon (sub_label o))).
  { unfold clean_sql_query at 1, strip_markup. cbv zeta.
    unfold o. rewrite clean_sql_query_stripped.
    rewrite (sub_fence_no_fence (py "sql")) by apply clean_sql_query_no_fence.
    rewrite (sub_fence_no_fence []) by apply clean_sql_query_no_fence.
    reflexivity. }
  rewrite E. unfold sub_label.
  destruct (match_label o) as [r|] eqn:M.
  - split; [|discriminate]. intro H.
    apply match_label_shorter in M.
    pose proof (strip_length (truncate_at_semicolon r)).
    pose proof (truncate_at_semicolon_length r).
    rewrite H in *. lia.
  - split; [reflexivity|]. intros _. unfold o.
    rewrite truncate_at_semicolon_clean. apply clean_sql_query_stripped.
Qed.

(** C4, as stated, fails: only the leading label is removed, and the
    output can hold the label again. *)
Lemma clean_sql_query_keeps_second_label :
  label_in_any_case (py "SQL:") /\
  contains (py "SQL:") (clean_sql_query (py "SQL:" ++ py " SQL: SELECT 1;")) = true.
Proof.
  split; [|vm_compute; reflexivity].
  exists (py "SQL:"). split; [|reflexivity].
  unfold label_alternatives. simpl. tauto.
Qed.

(** C4, amended: when the input begins, after white space [w], with a
    label [l] in any letter case, that label and the white space after it
    are stripped: the output is the cleaning of the text [r] after the
    label, and holds a text [p] (the label, say) only if [r], with its
    fences removed, holds it. *)
Theorem clean_sql_query_strips_leading_label (w l r : str) :
  blank w ->
  label_in_any_case l ->
  let rest := sub_fence [] (sub_fence (py "sql") (rstrip r)) in
  clean_sql_query (w ++ l ++ r) = strip (truncate_at_semicolon (lstrip rest)) /\
  forall p, contains p rest = false ->
            contains p (clean_sql_query (w ++ l ++ r)) = false.
Proof.
  intros Hw Hl rest.
  destruct (label_in_any_case_shape l Hl)
    as ((c & l1 & E1 & Hc) & (l2 & z & E2 & Hz) & Hb & Hm).
  assert (S : strip (w ++ l ++ r) = l ++ rstrip r).
  { unfold strip. rewrite lstrip_blank by exact Hw.
    rewrite E1 at 1. cbn [app]. rewrite lstrip_cons_nonspace by exact Hc.
    change (c :: l1 ++ r) with ((c :: l1) ++ r). rewrite <- E1.
    rewrite E2, <- !app_assoc. cbn [app].
    now apply rstrip_app_nonspace. }
  assert (E : clean_sql_query (w ++ l ++ r)
              = strip (truncate_at_semicolon (lstrip rest))).
  { unfold clean_sql_query, strip_markup. cbv zeta. rewrite S.
    rewrite !sub_fence_plain_prefix by exact Hb.
    unfold sub_label, match_label. rewrite Hm. reflexivity. }
  split; [exact E|]. intros p Hp. rewrite E.
  eapply contains_false_infix; [|exact Hp].
  eapply infix_trans; [apply strip_infix|].
  eapply infix_trans; [apply truncate_at_semicolon_infix|].
  apply lstrip_infix.
Qed.

Lemma clean_sql_query_strips_leading_label_example :
  blank (py "  ") /\ label_in_any_case (py "sql QUERY:") /\
  clean_sql_query (py "  sql QUERY: SELECT 1; thanks") = py "SELECT 1;".
Proof.
  assert (Hw : blank (py "  ")) by (repeat constructor).
  assert (Hl : label_in_any_case (py "sql QUERY:")).
  { exists (py "SQL Query:"). split; [now left | reflexivity]. }
  split; [exact Hw|]. split; [exact Hl|].
  refine (eq_trans
            (proj1 (clean_sql_query_strips_leading_label
                      _ _ (py " SELECT 1; thanks") Hw Hl)) _).
  vm_compute. reflexivity.
Defined.

(** ** Formatter and handler: the specified properties *)

(** [p] occurs in [s] up to the case of its ASCII letters. *)
Definition contains_any_case (p s : str) : Prop :=
  exists w, infix w s /\ map ascii_lower w = map ascii_lower p.

(** A case table that leaves every code point beyond ASCII as it is; it
    serves to run the formatter on ASCII texts. *)
Definition ascii_only_table : char -> str := fun c => [c].

Section FormatterFacts.

Variable upper_table : char -> str.

Lemma upper_app a b :
  upper upper_table (a ++ b) = upper upper_table a ++ upper upper_table b.
Proof. unfold upper. apply flat_map_app. Qed.

(** Any spelling of [count] becomes [COUNT]. *)
Lemma upper_count w :
  map ascii_lower w = map ascii_lower (py "COUNT") ->
  upper upper_table w = py "COUNT".
Proof.
  intro E. remember (map ascii_lower (py "COUNT")) as k eqn:K.
  vm_compute in K. subst k. spell_out w E.
  letter_cases; reflexivity.
Qed.

Lemma contains_upper_count query :
  contains_any_case (py "COUNT") query ->
  contains (py "COUNT") (upper upper_table query) = true.
Proof.
  intros (w & (l & r & ->) & E). apply contains_spec.
  exists (upper upper_table l), (upper upper_table r).
  now rewrite !upper_app, (upper_count _ E).
Qed.

(** The handler's answer when the statement runs and when it fails with
    an error text. *)
Lemma process_query_executed env request db chain raw_sql :
  init_database env = Returned db ->
  create_sql_chain env = Returned chain ->
  chain (question request) = Returned raw_sql ->
  process_query upper_table env request =
  let cleaned_sql := clean_sql_query raw_sql in
  match db cleaned_sql with
  | Raised (c :: e) =>
      inl {| success := false;
             result := None;
             sql_query := Some cleaned_sql;
             error := Some (py "SQL execution error: " ++ c :: e) |}
  | Raised [] =>
      inl {| success := true;
             result := Some no_results;
             sql_query := Some cleaned_sql;
             error := None |}
  | Returned rows =>
      inl {| success := true;
             result := Some (format_sql_result upper_table (Some rows)
                               (question request) cleaned_sql);
             sql_query := Some cleaned_sql;
             error := None |}
  end.
Proof.
  intros Hdb Hchain Hraw. unfold process_query, bind, execute_sql_safely.
  rewrite Hdb, Hchain, Hraw. cbv zeta.
  destruct (db (clean_sql_query raw_sql)) as [rows | [|c e]]; reflexivity.
Qed.

(** C1: every response the handler returns has [result] set exactly when
    [success] is true and [error] set exactly when [success] is false, so
    exactly one of the two is set. *)
Theorem process_query_response_invariant env request response :
  process_query upper_table env request = inl response ->
  (result response <> None <-> success response = true) /\
  (error response <> None <-> success response = false) /\
  (result response = None <-> error response <> None).
Proof.
  unfold process_query, bind, execute_sql_safely.
  destruct (init_database env) as [db|e]; [|discriminate].
  destruct (create_sql_chain env) as [chain|e]; [|discriminate].
  destruct (chain (question request)) as [raw_sql|e]; [|discriminate].
  cbv zeta.
  destruct (db (clean_sql_query raw_sql)) as [rows | [|c e]];
    cbn [truthy option_map]; intros [= <-]; cbn;
    repeat split; intros; solve [congruence | discriminate].
Qed.

(** C8: an empty or white-space-only result gives the fixed message,
    whatever the question and the query are. *)
Theorem format_sql_result_no_results result question query :
  blank result ->
  format_sql_result upper_table (Some result) question query =
  py "No results found for your query.".
Proof.
  intro H. unfold format_sql_result.
  rewrite (strip_blank _ H). cbn [mem_nil]. now rewrite orb_true_r.
Qed.

(** C7, amended: a result that is not empty and not white space only, for
    a query whose text holds [COUNT] in any letter case, is returned after
    the prefix [The result is: ]. *)
Theorem format_sql_result_count result question query :
  strip result <> [] ->
  contains_any_case (py "COUNT") query ->
  format_sql_result upper_table (Some result) question query =
  py "The result is: " ++ result.
Proof.
  intros Hr Hq. unfold format_sql_result.
  destruct result as [|c t]; [now elim Hr|].
  cbn [truthy negb orb].
  destruct (strip (c :: t)) as [|d u]; [now elim Hr|].
  cbn [mem_nil]. now rewrite contains_upper_count.
Qed.

End FormatterFacts.

Lemma process_query_response_invariant_example :
  let env := {| init_database := Returned (fun _ => Returned (py "[(59,)]"));
                create_sql_chain :=
                  Returned (fun _ => Returned (py "SELECT COUNT(*) FROM customers;")) |} in
  let request := {| question := py "How many customers are there in total?" |} in
  let response := {| success := true;
                     result := Some (py "The result is: [(59,)]");
                     sql_query := Some (py "SELECT COUNT(*) FROM customers;");
                     error := None |} in
  process_query ascii_only_table env request = inl response /\
  (result response <> None <-> success response = true) /\
  (error response <> None <-> success response = false) /\
  (result response = None <-> error response <> None).
Proof.
  intros env request response.
  assert (H : process_query ascii_only_table env request = inl response)
    by (vm_compute; reflexivity).
  split; [exact H|].
  exact (process_query_response_invariant ascii_only_table env request response H).
Defined.

Lemma format_sql_result_no_results_example :
  blank (py "  ") /\
  format_sql_result ascii_only_table (Some (py "  "))
    (py "How many customers are there in total?")
    (py "SELECT COUNT(*) FROM customers;")
  = py "No results found for your query.".
Proof.
  assert (H : blank (py "  ")) by (repeat constructor).
  split; [exact H|].
  exact (format_sql_result_no_results ascii_only_table _ _ _ H).
Defined.

(** C7, as stated, fails: a result of one space is not empty, yet the
    formatter answers with the no-results message, also for a counting
    query. *)
Lemma format_sql_result_blank_count :
  py " " <> [] /\
  contains_any_case (py "COUNT") (py "SELECT COUNT(*) FROM customers;") /\
  format_sql_result ascii_only_table (Some (py " "))
    (py "How many customers are there in total?")
    (py "SELECT COUNT(*) FROM customers;")
  <> py "The result is: " ++ py " ".
Proof.
  split; [discriminate|]. split.
  - exists (py "COUNT"). split; [|reflexivity].
    exists (py "SELECT "), (py "(*) FROM customers;"). reflexivity.
  - vm_compute. discriminate.
Qed.

Lemma format_sql_result_count_example :
  strip (py "[(59,)]") <> [] /\
  contains_any_case (py "COUNT") (py "select Count(*) from customers;") /\
  format_sql_result ascii_only_table (Some (py "[(59,)]"))
    (py "How many customers are there in total?")
    (py "select Count(*) from customers;")
  = py "The result is: [(59,)]".
Proof.
  assert (Hr : strip (py "[(59,)]") <> []) by (vm_compute; discriminate).
  assert (Hq : contains_any_case (py "COUNT") (py "select Count(*) from customers;")).
  { exists (py "Count"). split; [|reflexivity].
    exists (py "select "), (py "(*) from customers;"). reflexivity. }
  split; [exact Hr|]. split; [exact Hq|].
  exact (format_sql_result_count ascii_only_table _
           (py "How many customers are there in total?") _ Hr Hq).
Defined.

(** C3 holds for an error with a text, and breaks for an exception whose
    text is empty: [if error:] takes the empty string for "no error", and
    the handler reports success with the no-results message. *)
Theorem process_query_empty_error_text (upper_table : char -> str) :
  let db : Database := fun _ => Raised [] in
  let chain : Chain := fun _ => Returned (py "SELECT Nope FROM customers;") in
  let env := {| init_database := Returned db; create_sql_chain := Returned chain |} in
  process_query upper_table env {| question := py "Which customers are nope?" |} =
  inl {| success := true;
         result := Some (py "No results found for your query.");
         sql_query := Some (py "SELECT Nope FROM customers;");
         error := None |}.
Proof. intros db chain env. vm_compute. reflexivity. Qed.

(** ** The SQL extractor: further properties *)

Lemma rstrip_app_blank s w : blank w -> rstrip (s ++ w) = rstrip s.
Proof.
  intro Hw. induction s as [|c s IH].
  - simpl. now apply rstrip_blank.
  - change (rstrip ((c :: s) ++ w))
      with (match rstrip (s ++ w) with
            | [] => if isspace c then [] else [c]
            | t' => c :: t'
            end).
    now rewrite IH.
Qed.

Lemma strip_app_blank w1 s w2 :
  blank w1 -> blank w2 -> strip (w1 ++ s ++ w2) = strip s.
Proof.
  intros H1 H2. unfold strip. rewrite lstrip_blank by exact H1.
  destruct (lstrip_split s) as (w & Hw & E).
  destruct (lstrip_head s) as [N | (c & t & N & Hc)].
  - rewrite N in *. rewrite app_nil_r in E. subst s.
    replace (lstrip (w ++ w2)) with (@nil char); [reflexivity|].
    symmetry. apply (f_equal (@length char)) in N.
    assert (B : blank (w ++ w2)) by (apply Forall_app; now split).
    clear -B. induction B as [|x l Hx _ IH]; simpl; [reflexivity|now rewrite Hx].
  - rewrite E at 1. rewrite <- app_assoc, lstrip_blank by exact Hw.
    rewrite N. cbn [app]. rewrite lstrip_cons_nonspace by exact Hc.
    change (c :: t ++ w2) with ((c :: t) ++ w2). now apply rstrip_app_blank.
Qed.

Lemma rstrip_last s t c : rstrip s = t ++ [c] -> isspace c = false.
Proof.
  revert t. induction s as [|x s IH]; intro t; simpl.
  - destruct t; discriminate.
  - destruct (rstrip s) as [|d u] eqn:R.
    + destruct (isspace x) eqn:Hx.
      * destruct t; discriminate.
      * destruct t as [|y [|z t]]; try discriminate. now intros [= <-].
    + destruct t as [|y t]; [discriminate|].
      intros [= _ E]. exact (IH t E).
Qed.

Lemma blank_no_semicolon w : blank w -> ~ In semicolon w.
Proof.
  intros Hw H. unfold blank in Hw. rewrite Forall_forall in Hw.
  apply Hw in H. discriminate H.
Qed.

(** The extractor on a text that is trimmed and holds no fence marker:
    only the label, truncation and trimming steps act. *)
Lemma clean_sql_query_plain s :
  strip s = s ->
  contains (fence []) s = false ->
  clean_sql_query s = strip (truncate_at_semicolon (sub_label s)).
Proof.
  intros Hs Hf. unfold clean_sql_query, strip_markup. cbv zeta.
  rewrite Hs.
  rewrite (sub_fence_no_fence (py "sql")) by exact Hf.
  rewrite (sub_fence_no_fence []) by exact Hf.
  reflexivity.
Qed.

(** X1: an empty or white-space-only response gives the empty text. *)
Theorem clean_sql_query_blank (sql_response : str) :
  blank sql_response -> clean_sql_query sql_response = [].
Proof.
  intro H. unfold clean_sql_query, strip_markup. cbv zeta.
  rewrite (strip_blank _ H). rewrite !sub_fence_equation_1. reflexivity.
Qed.

Lemma clean_sql_query_blank_example :
  blank (py "
   ") /\ clean_sql_query (py "
   ") = [].
Proof.
  assert (H : blank (py "
   ")) by (repeat constructor).
  split; [exact H|]. exact (clean_sql_query_blank _ H).
Defined.

(** X2: the output is trimmed: its first and its last character are not
    white space, and trimming it again changes nothing. *)
Theorem clean_sql_query_trimmed (sql_response : str) :
  strip (clean_sql_query sql_response) = clean_sql_query sql_response /\
  (forall c t, clean_sql_query sql_response = c :: t -> isspace c = false) /\
  (forall t c, clean_sql_query sql_response = t ++ [c] -> isspace c = false).
Proof.
  split; [apply clean_sql_query_stripped|]. split.
  - intros c t E. unfold clean_sql_query in E. cbv zeta in E.
    destruct (strip_head (truncate_at_semicolon (strip_markup sql_response)))
      as [N | (d & u & N & Hd)]; rewrite N in E; [discriminate|].
    now injection E as <- _.
  - intros t c E. unfold clean_sql_query in E. cbv zeta in E.
    unfold strip in E. exact (rstrip_last _ _ _ E).
Qed.

(** X3: the extractor only removes text: every character of the output
    is a character of the response, and the output is not longer. *)
Theorem clean_sql_query_only_removes (sql_response : str) :
  (forall c, In c (clean_sql_query sql_response) -> In c sql_response) /\
  length (clean_sql_query sql_response) <= length sql_response.
Proof.
  split.
  - intros c H. apply (infix_In _ _ _ (clean_sql_query_infix _)) in H.
    apply sub_fence_In, sub_fence_In in H.
    exact (infix_In _ _ _ (strip_infix _) H).
  - pose proof (infix_length _ _ (clean_sql_query_infix sql_response)).
    pose proof (sub_fence_length [] (sub_fence (py "sql") (strip sql_response))).
    pose proof (sub_fence_length (py "sql") (strip sql_response)).
    pose proof (strip_length sql_response). lia.
Qed.

(** X4: white space around the response does not count. *)
Theorem clean_sql_query_ignores_margin (w1 sql_response w2 : str) :
  blank w1 -> blank w2 ->
  clean_sql_query (w1 ++ sql_response ++ w2) = clean_sql_query sql_response.
Proof.
  intros H1 H2. unfold clean_sql_query, strip_markup. cbv zeta.
  now rewrite strip_app_blank.
Qed.

Lemma clean_sql_query_ignores_margin_example :
  blank (py "  ") /\ blank (py "
") /\
  clean_sql_query (py "  " ++ py "SQL: SELECT 1;" ++ py "
") = clean_sql_query (py "SQL: SELECT 1;").
Proof.
  assert (H1 : blank (py "  ")) by (repeat constructor).
  assert (H2 : blank (py "
")) by (repeat constructor).
  split; [exact H1|]. split; [exact H2|].
  exact (clean_sql_query_ignores_margin _ _ _ H1 H2).
Defined.

(** X5: the texts the extractor returns unchanged are exactly those that
    are trimmed, hold no fence marker, do not begin with a label, and
    hold no semicolon or a single one at the end. *)
Theorem clean_sql_query_fixed_point (sql : str) :
  clean_sql_query sql = sql <->
  strip sql = sql /\
  contains (py "```") sql = false /\
  match_label sql = None /\
  (~ In semicolon sql \/ exists p, sql = p ++ [semicolon] /\ ~ In semicolon p).
Proof.
  split.
  - intro E.
    assert (Hs : strip sql = sql) by (rewrite <- E; apply clean_sql_query_stripped).
    assert (Hf : contains (fence []) sql = false)
      by (rewrite <- E; apply clean_sql_query_no_fence).
    split; [exact Hs|]. split; [exact Hf|]. split.
    + destruct (match_label sql) as [r|] eqn:M; [|reflexivity].
      rewrite clean_sql_query_plain in E by assumption.
      unfold sub_label in E. rewrite M in E.
      apply match_label_shorter in M.
      pose proof (strip_length (truncate_at_semicolon r)).
      pose proof (truncate_at_semicolon_length r).
      rewrite E in *. lia.
    + destruct (clean_sql_query_shape sql) as [[H _] | [_ (p & Hp & Np)]].
      * now left.
      * right. exists p. rewrite E in Hp. now split.
  - intros (Hs & Hf & Hl & Hsemi).
    rewrite clean_sql_query_plain by assumption.
    unfold sub_label. rewrite Hl.
    destruct Hsemi as [N | (p & -> & Np)].
    + rewrite truncate_at_semicolon_none by exact N. exact Hs.
    + rewrite truncate_at_semicolon_app by exact Np. exact Hs.
Qed.

(** The first few-shot query of the prompt is such a text. *)
Lemma clean_sql_query_fixed_point_example :
  clean_sql_query
    (py "SELECT FirstName, LastName, Country FROM customers WHERE Country = 'Brazil';")
  = py "SELECT FirstName, LastName, Country FROM customers WHERE Country = 'Brazil';".
Proof.
  apply (proj2 (clean_sql_query_fixed_point _)).
  split; [vm_compute; reflexivity|].
  split; [vm_compute; reflexivity|].
  split; [vm_compute; reflexivity|].
  right.
  exists (py "SELECT FirstName, LastName, Country FROM customers WHERE Country = 'Brazil'").
  split; [reflexivity|].
  intro H. apply mem_In in H. vm_compute in H. discriminate H.
Defined.

(** X6: a response whose first character that is not white space is a
    semicolon is cut down to that semicolon. *)
Theorem clean_sql_query_empty_statement (w rest : str) :
  blank w -> clean_sql_query (w ++ semicolon :: rest) = [semicolon].
Proof.
  intro Hw. rewrite clean_sql_query_at_semicolon by now apply blank_no_semicolon.
  replace (lstrip w) with (@nil char).
  - rewrite !sub_fence_equation_1. reflexivity.
  - symmetry. rewrite <- (app_nil_r w). now rewrite lstrip_blank.
Qed.

Lemma clean_sql_query_empty_statement_example :
  blank (py " ") /\
  clean_sql_query (py " ; DROP TABLE customers;") = py ";".
Proof.
  assert (H : blank (py " ")) by (repeat constructor).
  split; [exact H|].
  exact (clean_sql_query_empty_statement (py " ") (py " DROP TABLE customers;") H).
Defined.

(** *** A statement inside a fenced block *)

Lemma lstrip_all_blank w : blank w -> lstrip w = [].
Proof. induction 1 as [|c w Hc _ IH]; simpl; [reflexivity | now rewrite Hc]. Qed.

Lemma lstrip_nil_blank s : lstrip s = [] -> blank s.
Proof.
  intro H. destruct (lstrip_split s) as (w & Hw & E).
  rewrite H, app_nil_r in E. now subst.
Qed.

Lemma lstrip_app_nonblank r w : lstrip r <> [] -> lstrip (r ++ w) = lstrip r ++ w.
Proof.
  intro H. destruct (lstrip_split r) as (w0 & Hw0 & E).
  destruct (lstrip_head r) as [N | (c & t & N & Hc)]; [contradiction|].
  rewrite E at 1. rewrite <- app_assoc, lstrip_blank by exact Hw0.
  rewrite N. cbn [app]. now apply lstrip_cons_nonspace.
Qed.

Lemma drop_prefix_keep eqc p x w r :
  drop_prefix eqc p x = Some r -> drop_prefix eqc p (x ++ w) = Some (r ++ w).
Proof.
  revert x. induction p as [|a p IH]; intros x; simpl.
  - now intros [= ->].
  - destruct x as [|c x]; [discriminate|]. cbn [app].
    destruct (eqc a c); [apply IH | discriminate].
Qed.

(** A pattern whose last character accepts no white space cannot end
    inside a run of white space. *)
Lemma drop_prefix_blank_suffix p x w :
  p <> [] ->
  (forall c, isspace c = true -> matches_icase (last p 0%N) c = false) ->
  blank w ->
  drop_prefix matches_icase p x = None ->
  drop_prefix matches_icase p (x ++ w) = None.
Proof.
  intros Hp Hlast Hw. revert x w Hw.
  induction p as [|a p IH]; [contradiction|]. intros x w Hw.
  destruct p as [|b p].
  - destruct x as [|c x]; simpl.
    + intros _. destruct Hw as [|c w Hc _]; [reflexivity|].
      simpl in Hlast. now rewrite (Hlast c Hc).
    + destruct (matches_icase a c); [discriminate | reflexivity].
  - assert (IH' : forall x w, blank w ->
               drop_prefix matches_icase (b :: p) x = None ->
               drop_prefix matches_icase (b :: p) (x ++ w) = None).
    { apply IH; [discriminate | exact Hlast]. }
    destruct x as [|c x].
    + intros _. destruct Hw as [|c w Hc Hw]; [reflexivity|].
      cbn [app drop_prefix]. destruct (matches_icase a c); [|reflexivity].
      apply (IH' [] w Hw). reflexivity.
    + cbn [app drop_prefix]. destruct (matches_icase a c); [|reflexivity].
      now apply IH'.
Qed.

Lemma match_alternatives_blank_suffix x w :
  blank w ->
  match_alternatives label_alternatives (x ++ w) =
  option_map (fun r => r ++ w) (match_alternatives label_alternatives x).
Proof.
  intro Hw.
  assert (Hcolon : forall c, isspace c = true -> matches_icase 58%N c = false).
  { intros c Hc. destruct (matches_icase 58%N c) eqn:M; [|reflexivity].
    unfold matches_icase in M. cbv zeta in M.
    change (ascii_lower 58%N) with 58%N in M.
    change (ascii_upper 58%N) with 58%N in M.
    change (eqb_char 58%N 115%N) with false in M.
    rewrite andb_false_l, orb_false_r, orb_diag in M.
    apply eqb_char_eq in M. subst c. discriminate Hc. }
  unfold label_alternatives. cbn [match_alternatives].
  repeat match goal with
         | |- context [drop_prefix matches_icase ?p x] =>
             let E := fresh "E" in
             destruct (drop_prefix matches_icase p x) as [?r|] eqn:E;
             [ rewrite (drop_prefix_keep _ _ _ w _ E); reflexivity
             | rewrite (drop_prefix_blank_suffix p x w)
                 by (discriminate || exact Hcolon || exact Hw || exact E) ]
         end.
  reflexivity.
Qed.

Lemma truncate_strip_blank_suffix y w :
  blank w ->
  strip (truncate_at_semicolon (y ++ w)) = strip (truncate_at_semicolon y).
Proof.
  intro Hw. destruct (in_dec N.eq_dec semicolon y) as [H|H].
  - apply first_occurrence in H. destruct H as (a & b & -> & Ha).
    rewrite <- app_assoc. cbn [app].
    now rewrite !truncate_at_semicolon_app.
  - rewrite !truncate_at_semicolon_none; [| exact H |].
    + exact (strip_app_blank [] y w (Forall_nil _) Hw).
    + intro H'. apply in_app_or in H'. destruct H' as [H'|H']; [tauto|].
      exact (blank_no_semicolon _ Hw H').
Qed.

(** White space at the end of the text does not count for the label,
    truncation and trimming steps. *)
Lemma finish_blank_suffix x w :
  blank w ->
  strip (truncate_at_semicolon (sub_label (x ++ w))) =
  strip (truncate_at_semicolon (sub_label x)).
Proof.
  intro Hw. unfold sub_label, match_label.
  rewrite match_alternatives_blank_suffix by exact Hw.
  destruct (match_alternatives label_alternatives x) as [r|]; cbn [option_map].
  - destruct (lstrip r) as [|c t] eqn:L.
    + apply lstrip_nil_blank in L.
      rewrite lstrip_all_blank; [reflexivity|]. apply Forall_app. now split.
    + rewrite lstrip_app_nonblank by (rewrite L; discriminate).
      rewrite L. now apply truncate_strip_blank_suffix.
  - now apply truncate_strip_blank_suffix.
Qed.

Lemma no_backtick_no_fence s : ~ In backtick s -> contains (fence []) s = false.
Proof.
  intro H. destruct (contains (fence []) s) eqn:C; [|reflexivity].
  apply contains_spec in C. elim H.
  apply (infix_In _ _ _ C). now left.
Qed.

Lemma sub_fence_at_fence tag body :
  sub_fence tag (fence tag ++ body) = sub_fence tag (skip_newline body).
Proof.
  assert (M : match_fence tag (fence tag ++ body) = Some (skip_newline body)).
  { apply match_fence_spec. now exists body. }
  change (fence tag ++ body)
    with (backtick :: (backtick :: backtick :: tag ++ body)) in *.
  now rewrite sub_fence_cons, M.
Qed.

(** The first substitution leaves a fence marker followed by a newline
    alone. *)
Lemma sub_fence_sql_bare_fence rest :
  sub_fence (py "sql") (fence [] ++ newline :: rest) =
  fence [] ++ sub_fence (py "sql") (newline :: rest).
Proof.
  unfold fence. cbn [app].
  assert (N : forall pre, In pre [[backtick; backtick; backtick];
                                  [backtick; backtick]; [backtick]] ->
                          match_fence (py "sql") (pre ++ newline :: rest) = None).
  { intros pre Hpre.
    destruct (match_fence (py "sql") (pre ++ newline :: rest)) eqn:E; [|reflexivity].
    apply match_fence_spec in E. destruct E as (b & E & _).
    simpl in Hpre. destruct Hpre as [<-|[<-|[<-|[]]]]; cbv in E; congruence. }
  pose proof (N [backtick; backtick; backtick]) as N1.
  pose proof (N [backtick; backtick]) as N2.
  pose proof (N [backtick]) as N3.
  cbn [app] in N1, N2, N3.
  rewrite sub_fence_cons, N1 by (simpl; tauto).
  rewrite sub_fence_cons, N2 by (simpl; tauto).
  rewrite sub_fence_cons, N3 by (simpl; tauto).
  reflexivity.
Qed.

(** X7: a statement in a fenced block, with or without the [sql] tag, is
    extracted as the statement alone is, when it holds no backtick and
    starts at the beginning of its line. *)
Theorem clean_sql_query_fenced (tag q : str) :
  tag = [] \/ tag = py "sql" ->
  ~ In backtick q ->
  lstrip q = q ->
  clean_sql_query (fence tag ++ newline :: q ++ newline :: fence []) =
  clean_sql_query q.
Proof.
  intros Htag Hq Hl.
  assert (Hend : sub_fence (py "sql") (newline :: fence []) = newline :: fence [])
    by (vm_compute; reflexivity).
  assert (Hend' : sub_fence [] (newline :: fence []) = [newline])
    by (vm_compute; reflexivity).
  assert (S : strip_markup (fence tag ++ newline :: q ++ newline :: fence [])
              = sub_label (q ++ [newline])).
  { unfold strip_markup. cbv zeta.
    assert (St : strip (fence tag ++ newline :: q ++ newline :: fence [])
                 = fence tag ++ newline :: q ++ newline :: fence []).
    { change (fence tag ++ newline :: q ++ newline :: fence [])
        with ([] ++ backtick :: (backtick :: backtick :: tag ++ newline :: q
                                 ++ newline :: fence [])).
      rewrite strip_app_nonspace by reflexivity. cbn [lstrip app]. do 3 f_equal.
      change (fence []) with ([backtick; backtick] ++ [backtick]).
      replace (tag ++ newline :: q ++ newline :: [backtick; backtick] ++ [backtick])
        with ((tag ++ newline :: q ++ newline :: [backtick; backtick]) ++ [backtick]).
      - enough (R : forall m, rstrip (backtick :: backtick :: m ++ [backtick])
                              = backtick :: backtick :: m ++ [backtick]) by apply R.
        intro m.
        change (backtick :: backtick :: m ++ [backtick])
          with ((backtick :: backtick :: m) ++ backtick :: []).
        now rewrite rstrip_app_nonspace.
      - rewrite <- !app_assoc. cbn [app]. rewrite <- !app_assoc. reflexivity. }
    rewrite St.
    assert (P1 : sub_fence (py "sql")
                   (fence tag ++ newline :: q ++ newline :: fence [])
                 = (if mem_nil tag then fence [] ++ [newline] else [])
                     ++ q ++ newline :: fence []).
    { destruct Htag as [-> | ->].
      - rewrite sub_fence_sql_bare_fence.
        change (newline :: q ++ newline :: fence [])
          with ((newline :: q) ++ newline :: fence []).
        rewrite sub_fence_plain_prefix.
        + rewrite Hend. reflexivity.
        + intros [H|H]; [discriminate H | contradiction].
      - rewrite sub_fence_at_fence.
        change (skip_newline (newline :: q ++ newline :: fence []))
          with (q ++ newline :: fence []).
        rewrite sub_fence_plain_prefix by exact Hq. rewrite Hend. reflexivity. }
    rewrite P1.
    assert (P2 : sub_fence []
                   ((if mem_nil tag then fence [] ++ [newline] else [])
                      ++ q ++ newline :: fence [])
                 = q ++ [newline]).
    { assert (Q : sub_fence [] (q ++ newline :: fence []) = q ++ [newline])
        by (rewrite sub_fence_plain_prefix by exact Hq; now rewrite Hend').
      destruct Htag as [-> | ->]; cbn [mem_nil]; [|exact Q].
      rewrite <- app_assoc.
      rewrite (sub_fence_at_fence [] ([newline] ++ q ++ newline :: fence [])).
      exact Q. }
    now rewrite P2. }
  assert (B : ~ In backtick (strip q))
    by (intro H; apply Hq; exact (infix_In _ _ _ (strip_infix q) H)).
  destruct (rstrip_split q) as (w & Hw & E).
  unfold clean_sql_query at 1. cbv zeta. rewrite S.
  unfold clean_sql_query, strip_markup. cbv zeta.
  rewrite (sub_fence_no_fence (py "sql") (strip q))
    by (apply no_backtick_no_fence; exact B).
  rewrite (sub_fence_no_fence [] (strip q))
    by (apply no_backtick_no_fence; exact B).
  replace (strip q) with (rstrip q) by (unfold strip; now rewrite Hl).
  replace (q ++ [newline]) with (rstrip q ++ (w ++ [newline]))
    by (rewrite app_assoc, <- E; reflexivity).
  apply finish_blank_suffix. apply Forall_app. split; [exact Hw | repeat constructor].
Qed.

Lemma clean_sql_query_fenced_example :
  (py "sql" = [] \/ py "sql" = py "sql") /\
  ~ In backtick (py "SELECT Name FROM artists;") /\
  lstrip (py "SELECT Name FROM artists;") = py "SELECT Name FROM artists;" /\
  clean_sql_query (py "```sql
SELECT Name FROM artists;
```") = py "SELECT Name FROM artists;".
Proof.
  assert (Ht : py "sql" = [] \/ py "sql" = py "sql") by (right; reflexivity).
  assert (Hq : ~ In backtick (py "SELECT Name FROM artists;")).
  { intro H. apply mem_In in H. vm_compute in H. discriminate H. }
  assert (Hl : lstrip (py "SELECT Name FROM artists;") = py "SELECT Name FROM artists;")
    by reflexivity.
  split; [exact Ht|]. split; [exact Hq|]. split; [exact Hl|].
  refine (eq_trans (clean_sql_query_fenced (py "sql") _ Ht Hq Hl) _).
  vm_compute. reflexivity.
Defined.

(** ** Formatter and handler: further properties *)

Definition ascii_text (s : str) : Prop := Forall (fun c => (c < 128)%N) s.

Lemma ascii_upper_inv c p :
  ascii_upper c = p ->
  c = p \/ (c = (p + 32)%N /\ (65 <= p <= 90)%N).
Proof.
  unfold ascii_upper, is_ascii_lower.
  destruct (97 <=? c)%N eqn:A; destruct (c <=? 122)%N eqn:B; simpl; intros <-;
    try (now left).
  apply N.leb_le in A, B. right. lia.
Qed.

Section HandlerFacts.

Variable upper_table : char -> str.

Lemma upper_ascii_text s : ascii_text s -> upper upper_table s = map ascii_upper s.
Proof.
  induction 1 as [|c s Hc _ IH]; [reflexivity|].
  unfold upper in *. cbn [flat_map map]. rewrite IH. unfold upper_char.
  apply N.ltb_lt in Hc. now rewrite Hc.
Qed.

(** On an ASCII text, finding [COUNT] after [upper] is finding it in any
    letter case. *)
Lemma contains_upper_count_ascii query :
  ascii_text query ->
  contains (py "COUNT") (upper upper_table query) = true ->
  contains_any_case (py "COUNT") query.
Proof.
  intros Ha C. rewrite upper_ascii_text in C by exact Ha.
  apply contains_spec in C. destruct C as (l & r & E).
  apply map_eq_app in E. destruct E as (l' & m & -> & _ & E).
  apply map_eq_app in E. destruct E as (u & r' & -> & E & _).
  exists u. split; [now exists l', r'|].
  remember (py "COUNT") as k eqn:K. vm_compute in K. subst k.
  spell_out u E.
  repeat match goal with
         | H : ascii_upper ?c = _ |- _ =>
             apply ascii_upper_inv in H;
             destruct H as [H | [H ?]]; [subst c | try lia; subst c]
         end; reflexivity.
Qed.

(** X8: a statement that fails with an error text gives a failure response
    that names the cleaned statement and carries the text after the
    prefix [SQL execution error: ]. *)
Theorem process_query_sql_error env request db chain raw_sql c e :
  init_database env = Returned db ->
  create_sql_chain env = Returned chain ->
  chain (question request) = Returned raw_sql ->
  db (clean_sql_query raw_sql) = Raised (c :: e) ->
  process_query upper_table env request =
  inl {| success := false;
         result := None;
         sql_query := Some (clean_sql_query raw_sql);
         error := Some (py "SQL execution error: " ++ c :: e) |}.
Proof.
  intros Hdb Hchain Hraw Hrun.
  rewrite (process_query_executed upper_table env request db chain raw_sql Hdb Hchain Hraw).
  cbv zeta. now rewrite Hrun.
Qed.

(** X9: the handler raises HTTP 500 exactly when obtaining the database
    handle, obtaining the chain, or the model call raises, with the
    exception's text in the detail; a failing statement never does. *)
Theorem process_query_http_500 env request (ex : HTTPException) :
  process_query upper_table env request = inr ex <->
  exists e,
    ex = {| status_code := 500; detail := py "Internal server error: " ++ e |} /\
    (init_database env = Raised e \/
     (exists db, init_database env = Returned db /\
                 create_sql_chain env = Raised e) \/
     (exists db chain, init_database env = Returned db /\
                       create_sql_chain env = Returned chain /\
                       chain (question request) = Raised e)).
Proof.
  unfold process_query, bind, execute_sql_safely.
  destruct (init_database env) as [db|e0] eqn:Hdb.
  - destruct (create_sql_chain env) as [chain|e1] eqn:Hchain.
    + destruct (chain (question request)) as [raw|e2] eqn:Hraw.
      * cbv zeta.
        destruct (db (clean_sql_query raw)) as [rows | [|c e]];
          cbn [truthy]; (split; [discriminate|]);
          intros (e' & _ & [H | [(d & H & H') | (d & ch & H1 & H2 & H3)]]);
          try discriminate.
        all: injection H1 as <-; injection H2 as <-; congruence.
      * split.
        -- intros [= <-]. exists e2. split; [reflexivity|].
           right. right. now exists db, chain.
        -- intros (e' & -> & [H | [(d & H & H') | (d & ch & H1 & H2 & H3)]]);
             try discriminate.
           injection H2 as <-. congruence.
    + split.
      * intros [= <-]. exists e1. split; [reflexivity|].
        right. left. now exists db.
      * intros (e' & -> & [H | [(d & H & H') | (d & ch & H1 & H2 & H3)]]);
          try discriminate. congruence.
  - split.
    + intros [= <-]. exists e0. split; [reflexivity|]. now left.
    + intros (e' & -> & [H | [(d & H & H') | (d & ch & H1 & H2 & H3)]]);
        try discriminate. congruence.
Qed.

(** X10: every response, success or failure, reports the statement that
    was run: the cleaned output of the model, which holds no fence
    marker. *)
Theorem process_query_reports_sql env request response :
  process_query upper_table env request = inl response ->
  exists chain raw_sql,
    create_sql_chain env = Returned chain /\
    chain (question request) = Returned raw_sql /\
    sql_query response = Some (clean_sql_query raw_sql) /\
    contains (py "```") (clean_sql_query raw_sql) = false.
Proof.
  unfold process_query, bind, execute_sql_safely.
  destruct (init_database env) as [db|e]; [|discriminate].
  destruct (create_sql_chain env) as [chain|e]; [|discriminate].
  destruct (chain (question request)) as [raw_sql|e] eqn:Hraw; [|discriminate].
  cbv zeta. intro H. exists chain, raw_sql.
  split; [reflexivity|]. split; [exact Hraw|].
  split; [|apply clean_sql_query_no_fence].
  destruct (db (clean_sql_query raw_sql)) as [rows | [|c e]];
    cbn [truthy] in H; injection H as <-; reflexivity.
Qed.

(** X11: for an ASCII query text that does not hold [COUNT] in any letter
    case, a result that is not blank is returned under the header
    [Here are the results:] and an empty line. *)
Theorem format_sql_result_rows result question query :
  strip result <> [] ->
  ascii_text query ->
  ~ contains_any_case (py "COUNT") query ->
  format_sql_result upper_table (Some result) question query =
  py "Here are the results:" ++ [newline; newline] ++ result.
Proof.
  intros Hr Ha Hq. unfold format_sql_result.
  destruct result as [|c t]; [now elim Hr|].
  cbn [truthy negb orb].
  destruct (strip (c :: t)) as [|d u]; [now elim Hr|].
  cbn [mem_nil].
  destruct (contains (py "COUNT") (upper upper_table query)) eqn:C; [|reflexivity].
  elim Hq. now apply contains_upper_count_ascii.
Qed.

(** X12: the test for a counting query is a substring test: a query that
    names the [Country] column, in any letter case, is answered with the
    prefix [The result is: ]. *)
Theorem format_sql_result_country result question query :
  strip result <> [] ->
  contains_any_case (py "Country") query ->
  format_sql_result upper_table (Some result) question query =
  py "The result is: " ++ result.
Proof.
  intros Hr (w & (l & r & ->) & E).
  assert (Hq : contains_any_case (py "COUNT") (l ++ w ++ r)).
  { remember (map ascii_lower (py "Country")) as k eqn:K. vm_compute in K. subst k.
    spell_out w E.
    exists [c; c0; c1; c2; c3]. split.
    - exists l, ([c4; c5] ++ r). reflexivity.
    - cbn [map]. rewrite L, L0, L1, L2, L3. reflexivity. }
  unfold format_sql_result.
  destruct result as [|c t]; [now elim Hr|].
  cbn [truthy negb orb].
  destruct (strip (c :: t)) as [|d u]; [now elim Hr|].
  cbn [mem_nil]. now rewrite contains_upper_count.
Qed.

End HandlerFacts.

Lemma ascii_text_check s : forallb (fun c => (c <? 128)%N) s = true -> ascii_text s.
Proof.
  intro H. apply Forall_forall. intros c Hc.
  rewrite forallb_forall in H. apply N.ltb_lt. now apply H.
Qed.

(** A database without the column asked for, and a model that asks for
    it. *)
Definition failing_services : Services :=
  {| init_database :=
       Returned (fun _ => Raised (py "(sqlite3.OperationalError) no such column: Nope"));
     create_sql_chain :=
       Returned (fun _ => Returned (py "```sql
SELECT Nope FROM customers;
```")) |}.

Lemma process_query_sql_error_example :
  process_query ascii_only_table failing_services
    {| question := py "Which customers are nope?" |} =
  inl {| success := false;
         result := None;
         sql_query := Some (py "SELECT Nope FROM customers;");
         error := Some (py "SQL execution error: (sqlite3.OperationalError) no such column: Nope") |}.
Proof.
  refine (eq_trans
            (process_query_sql_error ascii_only_table failing_services
               {| question := py "Which customers are nope?" |}
               (fun _ => Raised (py "(sqlite3.OperationalError) no such column: Nope"))
               (fun _ => Returned (py "```sql
SELECT Nope FROM customers;
```"))
               (py "```sql
SELECT Nope FROM customers;
```")
               40%N (py "sqlite3.OperationalError) no such column: Nope")
               eq_refl eq_refl eq_refl eq_refl) _).
  vm_compute. reflexivity.
Defined.

Lemma process_query_reports_sql_example :
  exists chain raw_sql,
    create_sql_chain failing_services = Returned chain /\
    chain (py "Which customers are nope?") = Returned raw_sql /\
    Some (py "SELECT Nope FROM customers;") = Some (clean_sql_query raw_sql) /\
    contains (py "```") (clean_sql_query raw_sql) = false.
Proof.
  assert (H : process_query ascii_only_table failing_services
                {| question := py "Which customers are nope?" |} =
              inl {| success := false;
                     result := None;
                     sql_query := Some (py "SELECT Nope FROM customers;");
                     error := Some (py "SQL execution error: (sqlite3.OperationalError) no such column: Nope") |})
    by (vm_compute; reflexivity).
  exact (process_query_reports_sql ascii_only_table failing_services _ _ H).
Defined.

Lemma format_sql_result_rows_example :
  strip (py "[('AC/DC',), ('Accept',)]") <> [] /\
  ascii_text (py "SELECT Name FROM artists LIMIT 2;") /\
  ~ contains_any_case (py "COUNT") (py "SELECT Name FROM artists LIMIT 2;") /\
  format_sql_result ascii_only_table (Some (py "[('AC/DC',), ('Accept',)]"))
    (py "Name two artists") (py "SELECT Name FROM artists LIMIT 2;")
  = py "Here are the results:

[('AC/DC',), ('Accept',)]".
Proof.
  assert (Hr : strip (py "[('AC/DC',), ('Accept',)]") <> [])
    by (vm_compute; discriminate).
  assert (Ha : ascii_text (py "SELECT Name FROM artists LIMIT 2;"))
    by (apply ascii_text_check; reflexivity).
  assert (Hq : ~ contains_any_case (py "COUNT") (py "SELECT Name FROM artists LIMIT 2;")).
  { intro H. apply (contains_upper_count ascii_only_table) in H.
    vm_compute in H. discriminate H. }
  split; [exact Hr|]. split; [exact Ha|]. split; [exact Hq|].
  exact (format_sql_result_rows ascii_only_table _ (py "Name two artists") _ Hr Ha Hq).
Defined.

Lemma format_sql_result_country_example :
  strip (py "[('Luis', 'Brazil')]") <> [] /\
  contains_any_case (py "Country")
    (py "SELECT FirstName, Country FROM customers WHERE Country = 'Brazil';") /\
  format_sql_result ascii_only_table (Some (py "[('Luis', 'Brazil')]"))
    (py "Which customers are from Brazil?")
    (py "SELECT FirstName, Country FROM customers WHERE Country = 'Brazil';")
  = py "The result is: [('Luis', 'Brazil')]".
Proof.
  assert (Hr : strip (py "[('Luis', 'Brazil')]") <> []) by (vm_compute; discriminate).
  assert (Hq : contains_any_case (py "Country")
                 (py "SELECT FirstName, Country FROM customers WHERE Country = 'Brazil';")).
  { exists (py "Country"). split; [|reflexivity].
    exists (py "SELECT FirstName, "), (py " FROM customers WHERE Country = 'Brazil';").
    reflexivity. }
  split; [exact Hr|]. split; [exact Hq|].
  exact (format_sql_result_country ascii_only_table _
           (py "Which customers are from Brazil?") _ Hr Hq).
Defined.

(** ** Start-up and the lazily initialised components *)

Section StartupFacts.

Variable Llm : Type.

Implicit Types (w : Startup.World Llm) (st : Startup.State Llm).

Definition credential_missing w : Prop :=
  Startup.getenv w (py "GOOGLE_API_KEY") = None \/
  Startup.getenv w (py "GOOGLE_API_KEY") = Some [].

Definition credential_error : str :=
  py "GOOGLE_API_KEY environment variable is required".

Lemma init_llm_missing w st :
  Startup.llm st = None -> credential_missing w ->
  Startup.init_llm w st = (Raised credential_error, st).
Proof.
  intros Hl Hk. unfold Startup.init_llm. rewrite Hl. cbv zeta.
  destruct Hk as [-> | ->]; reflexivity.
Qed.

(** X13: without the model credential (unset or empty) and with no model
    handle yet, start-up fails with the credential error after printing the
    failure line, and leaves every component as it was: the database is
    not opened and the chain is not built. *)
Theorem startup_event_missing_credential w st :
  Startup.llm st = None ->
  credential_missing w ->
  Startup.startup_event w st =
  (Raised credential_error,
   Startup.print
     (Startup.cross_mark :: py " Failed to initialize application: " ++ credential_error)
     st).
Proof.
  intros Hl Hk. unfold Startup.startup_event, Startup.then_.
  now rewrite (init_llm_missing w st Hl Hk).
Qed.

(** X14: a handle, once obtained, is cached: a later call returns the same
    handle and changes nothing, whatever the environment has become. *)
Theorem initialisers_cached w (w' : Startup.World Llm) st (st' : Startup.State Llm) :
  (forall l, Startup.init_llm w st = (Returned l, st') ->
             Startup.init_llm w' st' = (Returned l, st')) /\
  (forall d, Startup.init_database w st = (Returned d, st') ->
             Startup.init_database w' st' = (Returned d, st')) /\
  (forall c, Startup.create_sql_chain w st = (Returned c, st') ->
             Startup.create_sql_chain w' st' = (Returned c, st')).
Proof.
  split; [|split].
  - intros l. unfold Startup.init_llm.
    destruct (Startup.llm st) as [l0|] eqn:Hl.
    + intros [= <- <-]. now rewrite Hl.
    + cbv zeta. destruct (Startup.getenv w (py "GOOGLE_API_KEY")) as [[|c k]|];
        try discriminate.
      destruct (Startup.ChatGoogleGenerativeAI w (c :: k)); [|discriminate].
      intros [= <- <-]. reflexivity.
  - intros d. unfold Startup.init_database.
    destruct (Startup.db st) as [d0|] eqn:Hd.
    + intros [= <- <-]. now rewrite Hd.
    + cbv zeta. destruct (Startup.from_uri w _); [|discriminate].
      intros [= <- <-]. reflexivity.
  - intros c. unfold Startup.create_sql_chain.
    destruct (Startup.sql_chain st) as [c0|] eqn:Hc.
    + intros [= <- <-]. now rewrite Hc.
    + unfold Startup.then_.
      destruct (Startup.init_llm w st) as [[l|e] st1]; [|discriminate].
      destruct (Startup.compose_chain w l); [|discriminate].
      intros [= <- <-]. reflexivity.
Qed.

(** The components that are set in [st] are set, to the same handles, in
    [st']. *)
Definition keeps_handles st (st' : Startup.State Llm) : Prop :=
  (forall l, Startup.llm st = Some l -> Startup.llm st' = Some l) /\
  (forall d, Startup.db st = Some d -> Startup.db st' = Some d) /\
  (forall c, Startup.sql_chain st = Some c -> Startup.sql_chain st' = Some c).

Lemma keeps_handles_refl st : keeps_handles st st.
Proof. repeat split; auto. Qed.

Lemma keeps_handles_trans (a b c : Startup.State Llm) :
  keeps_handles a b -> keeps_handles b c -> keeps_handles a c.
Proof. intros (A1 & A2 & A3) (B1 & B2 & B3). repeat split; auto. Qed.

(** [init_llm] touches the model handle only. *)
Lemma init_llm_frame w st :
  Startup.db (snd (Startup.init_llm w st)) = Startup.db st /\
  Startup.sql_chain (snd (Startup.init_llm w st)) = Startup.sql_chain st /\
  Startup.stdout (snd (Startup.init_llm w st)) = Startup.stdout st.
Proof.
  unfold Startup.init_llm.
  destruct (Startup.llm st); [now repeat split|].
  cbv zeta. destruct (Startup.getenv w (py "GOOGLE_API_KEY")) as [[|c k]|];
    try (now repeat split).
  destruct (Startup.ChatGoogleGenerativeAI w (c :: k)); now repeat split.
Qed.

Lemma init_llm_keeps w st :
  keeps_handles st (snd (Startup.init_llm w st)).
Proof.
  unfold Startup.init_llm.
  destruct (Startup.llm st) as [l0|] eqn:Hl; [apply keeps_handles_refl|].
  cbv zeta. destruct (Startup.getenv w (py "GOOGLE_API_KEY")) as [[|c k]|];
    try apply keeps_handles_refl.
  destruct (Startup.ChatGoogleGenerativeAI w (c :: k)); [|apply keeps_handles_refl].
  repeat split; simpl; auto. congruence.
Qed.

Lemma init_database_keeps w st :
  keeps_handles st (snd (Startup.init_database w st)).
Proof.
  unfold Startup.init_database.
  destruct (Startup.db st) as [d0|] eqn:Hd; [apply keeps_handles_refl|].
  cbv zeta. destruct (Startup.from_uri w _); [|apply keeps_handles_refl].
  repeat split; simpl; auto. congruence.
Qed.

Lemma create_sql_chain_keeps w st :
  keeps_handles st (snd (Startup.create_sql_chain w st)).
Proof.
  unfold Startup.create_sql_chain.
  destruct (Startup.sql_chain st) as [c0|] eqn:Hc; [apply keeps_handles_refl|].
  unfold Startup.then_. pose proof (init_llm_keeps w st) as K.
  pose proof (init_llm_frame w st) as (_ & F & _).
  destruct (Startup.init_llm w st) as [[l|e] st1]; simpl in K, F; [|exact K].
  destruct (Startup.compose_chain w l); simpl; [|exact K].
  destruct K as (K1 & K2 & _).
  repeat split; simpl; auto. congruence.
Qed.

Lemma init_database_frame w st :
  Startup.llm (snd (Startup.init_database w st)) = Startup.llm st /\
  Startup.sql_chain (snd (Startup.init_database w st)) = Startup.sql_chain st /\
  Startup.stdout (snd (Startup.init_database w st)) = Startup.stdout st.
Proof.
  unfold Startup.init_database.
  destruct (Startup.db st); [now repeat split|].
  cbv zeta. destruct (Startup.from_uri w _); now repeat split.
Qed.

Lemma create_sql_chain_frame w st :
  Startup.db (snd (Startup.create_sql_chain w st)) = Startup.db st /\
  Startup.stdout (snd (Startup.create_sql_chain w st)) = Startup.stdout st.
Proof.
  unfold Startup.create_sql_chain.
  destruct (Startup.sql_chain st); [now split|].
  unfold Startup.then_. pose proof (init_llm_frame w st) as (F1 & _ & F2).
  destruct (Startup.init_llm w st) as [[l|e] st1]; simpl in F1, F2; [|now split].
  destruct (Startup.compose_chain w l); now split.
Qed.

(** A handle that is returned is the one the global holds afterwards. *)
Lemma init_llm_returns w st l st' :
  Startup.init_llm w st = (Returned l, st') -> Startup.llm st' = Some l.
Proof.
  unfold Startup.init_llm.
  destruct (Startup.llm st) as [l0|] eqn:Hl.
  - now intros [= <- <-].
  - cbv zeta. destruct (Startup.getenv w (py "GOOGLE_API_KEY")) as [[|c k]|];
      try discriminate.
    destruct (Startup.ChatGoogleGenerativeAI w (c :: k)); [|discriminate].
    now intros [= <- <-].
Qed.

Lemma init_database_returns w st d st' :
  Startup.init_database w st = (Returned d, st') -> Startup.db st' = Some d.
Proof.
  unfold Startup.init_database.
  destruct (Startup.db st) as [d0|] eqn:Hd.
  - now intros [= <- <-].
  - cbv zeta. destruct (Startup.from_uri w _); [|discriminate].
    now intros [= <- <-].
Qed.

Lemma create_sql_chain_returns w st c st' :
  Startup.create_sql_chain w st = (Returned c, st') ->
  Startup.sql_chain st' = Some c.
Proof.
  unfold Startup.create_sql_chain.
  destruct (Startup.sql_chain st) as [c0|] eqn:Hc.
  - now intros [= <- <-].
  - unfold Startup.then_.
    destruct (Startup.init_llm w st) as [[l|e] st1]; [|discriminate].
    destruct (Startup.compose_chain w l); [|discriminate].
    now intros [= <- <-].
Qed.

(** The handler on globals that hold the database and the chain. *)
Lemma process_query_cached w upper_table request st d c :
  Startup.db st = Some d ->
  Startup.sql_chain st = Some c ->
  Startup.process_query w upper_table request st =
  (process_query upper_table (Build_Services (Returned d) (Returned c)) request, st).
Proof.
  intros Hd Hc. unfold Startup.process_query, Startup.init_database,
    Startup.create_sql_chain.
  now rewrite Hd, Hc.
Qed.

(** X15: no operation unsets or replaces a handle: what is set before
    [init_llm], [init_database], [create_sql_chain], start-up or the
    handler runs is set to the same handle afterwards, also when the
    operation raises. *)
Theorem handles_are_kept w st :
  keeps_handles st (snd (Startup.init_llm w st)) /\
  keeps_handles st (snd (Startup.init_database w st)) /\
  keeps_handles st (snd (Startup.create_sql_chain w st)) /\
  keeps_handles st (snd (Startup.startup_event w st)) /\
  forall upper_table request,
    keeps_handles st (snd (Startup.process_query w upper_table request st)).
Proof.
  split; [apply init_llm_keeps|].
  split; [apply init_database_keeps|].
  split; [apply create_sql_chain_keeps|].
  split.
  - unfold Startup.startup_event, Startup.then_.
    pose proof (init_llm_keeps w st) as K1.
    destruct (Startup.init_llm w st) as [[l|e] st1]; simpl in K1; [|exact K1].
    pose proof (init_database_keeps w st1) as K2.
    destruct (Startup.init_database w st1) as [[d|e] st2]; simpl in K2;
      [|exact (keeps_handles_trans _ _ _ K1 K2)].
    pose proof (create_sql_chain_keeps w st2) as K3.
    pose proof (keeps_handles_trans _ _ _ K1 (keeps_handles_trans _ _ _ K2 K3)) as K.
    destruct (Startup.create_sql_chain w st2) as [[c|e] st3]; exact K.
  - intros upper_table request. unfold Startup.process_query.
    pose proof (init_database_keeps w st) as K1.
    destruct (Startup.init_database w st) as [[d|e] st1]; simpl in K1; [|exact K1].
    pose proof (create_sql_chain_keeps w st1) as K2.
    destruct (Startup.create_sql_chain w st1) as [got st2]. simpl in *.
    exact (keeps_handles_trans _ _ _ K1 K2).
Qed.

(** X16: when start-up returns, the model, the database and the chain are
    all set, and one line, the success line, has been printed. *)
Theorem startup_event_initialises w st st' :
  Startup.startup_event w st = (Returned tt, st') ->
  (exists l d c, Startup.llm st' = Some l /\ Startup.db st' = Some d /\
                 Startup.sql_chain st' = Some c) /\
  Startup.stdout st' =
  Startup.stdout st
    ++ [Startup.check_mark :: py " Application initialized successfully!"].
Proof.
  unfold Startup.startup_event, Startup.then_.
  destruct (Startup.init_llm w st) as [[l|e] st1] eqn:E1; [|discriminate].
  destruct (Startup.init_database w st1) as [[d|e] st2] eqn:E2; [|discriminate].
  destruct (Startup.create_sql_chain w st2) as [[c|e] st3] eqn:E3; [|discriminate].
  intros [= <-]. cbn.
  pose proof (init_llm_returns _ _ _ _ E1) as R1.
  pose proof (init_database_returns _ _ _ _ E2) as R2.
  pose proof (create_sql_chain_returns _ _ _ _ E3) as R3.
  pose proof (init_llm_frame w st) as (_ & _ & O1). rewrite E1 in O1.
  pose proof (init_database_frame w st1) as (L2 & _ & O2). rewrite E2 in L2, O2.
  pose proof (create_sql_chain_frame w st2) as (D3 & O3). rewrite E3 in D3, O3.
  pose proof (create_sql_chain_keeps w st2) as (K3 & _ & _). rewrite E3 in K3.
  simpl in *. split.
  - exists l, d, c. split; [|split; [congruence | exact R3]].
    apply K3. congruence.
  - now rewrite O3, O2, O1.
Qed.

(** X17: after a successful start-up the handler works on the cached
    database and chain and leaves the globals as they are, whatever the
    environment has become; no request fails for want of a component. *)
Theorem process_query_after_startup w st st' :
  Startup.startup_event w st = (Returned tt, st') ->
  exists d c,
    Startup.db st' = Some d /\ Startup.sql_chain st' = Some c /\
    forall (w' : Startup.World Llm) upper_table request,
      Startup.process_query w' upper_table request st' =
      (process_query upper_table (Build_Services (Returned d) (Returned c)) request,
       st').
Proof.
  intro H. unfold Startup.startup_event, Startup.then_ in H.
  destruct (Startup.init_llm w st) as [[l|e] st1] eqn:E1; [|discriminate].
  destruct (Startup.init_database w st1) as [[d|e] st2] eqn:E2; [|discriminate].
  destruct (Startup.create_sql_chain w st2) as [[c|e] st3] eqn:E3; [|discriminate].
  injection H as <-.
  pose proof (init_database_returns _ _ _ _ E2) as R2.
  pose proof (create_sql_chain_returns _ _ _ _ E3) as R3.
  pose proof (create_sql_chain_frame w st2) as (D3 & _). rewrite E3 in D3.
  simpl in D3.
  exists d, c. split; [cbn; congruence|]. split; [exact R3|].
  intros w' upper_table request. apply process_query_cached; cbn; congruence.
Qed.

(** X18: a request on globals without model handle and chain, when the
    model credential is missing, obtains (and caches) the database, then
    fails with HTTP 500 and the credential error: the handler asks for the
    database before the chain. *)
Theorem process_query_missing_credential w st d st1 upper_table request :
  Startup.llm st = None ->
  Startup.sql_chain st = None ->
  credential_missing w ->
  Startup.init_database w st = (Returned d, st1) ->
  Startup.process_query w upper_table request st =
  (inr {| status_code := 500;
          detail := py "Internal server error: " ++ credential_error |},
   st1) /\
  Startup.db st1 = Some d.
Proof.
  intros Hl Hc Hk Hdb. split; [|exact (init_database_returns _ _ _ _ Hdb)].
  pose proof (init_database_frame w st) as (F1 & F2 & _).
  rewrite Hdb in F1, F2. simpl in F1, F2.
  unfold Startup.process_query. rewrite Hdb.
  unfold Startup.create_sql_chain. rewrite F2, Hc. unfold Startup.then_.
  rewrite (init_llm_missing w st1) by (congruence || exact Hk).
  reflexivity.
Qed.

End StartupFacts.

(** Two worlds to run the initialisers in: one where no environment
    variable is set, one where every variable reads [secret]; in both the
    constructors succeed. *)
Definition bare_world : Startup.World unit :=
  {| Startup.getenv := fun _ => None;
     Startup.ChatGoogleGenerativeAI := fun _ => Returned tt;
     Startup.from_uri := fun _ => Returned (fun _ => Returned (py "[(59,)]"));
     Startup.compose_chain :=
       fun _ => Returned (fun _ => Returned (py "SELECT COUNT(*) FROM customers;")) |}.

Definition configured_world : Startup.World unit :=
  {| Startup.getenv := fun _ => Some (py "secret");
     Startup.ChatGoogleGenerativeAI := fun _ => Returned tt;
     Startup.from_uri := fun _ => Returned (fun _ => Returned (py "[(59,)]"));
     Startup.compose_chain :=
       fun _ => Returned (fun _ => Returned (py "SELECT COUNT(*) FROM customers;")) |}.

Lemma startup_event_missing_credential_example :
  Startup.startup_event bare_world Startup.initial =
  (Raised (py "GOOGLE_API_KEY environment variable is required"),
   Startup.print
     (Startup.cross_mark
        :: py " Failed to initialize application: GOOGLE_API_KEY environment variable is required")
     Startup.initial).
Proof.
  exact (startup_event_missing_credential unit bare_world Startup.initial
           eq_refl (or_introl eq_refl)).
Defined.

Lemma startup_event_initialises_example :
  let st' := snd (Startup.startup_event configured_world Startup.initial) in
  (exists l d c, Startup.llm st' = Some l /\ Startup.db st' = Some d /\
                 Startup.sql_chain st' = Some c) /\
  Startup.stdout st' =
  [Startup.check_mark :: py " Application initialized successfully!"].
Proof.
  intro st'.
  assert (H : Startup.startup_event configured_world Startup.initial
              = (Returned tt, st')) by reflexivity.
  exact (startup_event_initialises unit configured_world Startup.initial st' H).
Defined.

Lemma process_query_after_startup_example :
  let st' := snd (Startup.startup_event configured_world Startup.initial) in
  exists d c,
    Startup.db st' = Some d /\ Startup.sql_chain st' = Some c /\
    forall (w' : Startup.World unit) upper_table request,
      Startup.process_query w' upper_table request st' =
      (process_query upper_table (Build_Services (Returned d) (Returned c)) request,
       st').
Proof.
  intro st'.
  assert (H : Startup.startup_event configured_world Startup.initial
              = (Returned tt, st')) by reflexivity.
  exact (process_query_after_startup unit configured_world Startup.initial st' H).
Defined.

Lemma process_query_missing_credential_example :
  let d : Database := fun _ => Returned (py "[(59,)]") in
  Startup.process_query bare_world ascii_only_table
    {| question := py "How many customers are there in total?" |} Startup.initial =
  (inr {| status_code := 500;
          detail := py "Internal server error: GOOGLE_API_KEY environment variable is required" |},
   Startup.set_db d Startup.initial) /\
  Startup.db (Startup.set_db d (@Startup.initial unit)) = Some d.
Proof.
  intro d.
  exact (process_query_missing_credential unit bare_world Startup.initial d
           (Startup.set_db d Startup.initial) ascii_only_table
           {| question := py "How many customers are there in total?" |}
           eq_refl eq_refl (or_introl eq_refl) eq_refl).
Defined.

(** ** The chat client *)

Section FrontendFacts.

Variable post : str -> Frontend.attempt Frontend.Response.

Definition user_message (text : str) : Frontend.Message :=
  {| Frontend.role := py "user";
     Frontend.content := Frontend.VStr text;
     Frontend.sql := None |}.

Definition assistant_message (shown sql : Frontend.value) : Frontend.Message :=
  {| Frontend.role := py "assistant";
     Frontend.content := shown;
     Frontend.sql := Some sql |}.

(** One turn as a case analysis: nothing on an empty input; otherwise the
    user's message, then the assistant's message unless a dict access
    raised. *)
Lemma process_user_input_cases messages user_input :
  (Frontend.process_user_input post messages user_input = (Returned tt, messages)
   /\ truthy user_input = false) \/
  exists text,
    user_input = Some text /\ truthy user_input = true /\
    ((exists e, Frontend.process_user_input post messages user_input =
                (Raised e, messages ++ [user_message text])) \/
     (exists shown sql,
        Frontend.process_user_input post messages user_input =
        (Returned tt,
         messages ++ [user_message text; assistant_message shown sql]))).
Proof.
  destruct user_input as [[|c q]|]; [left; now split | | left; now split].
  right. exists (c :: q). split; [reflexivity|]. split; [reflexivity|].
  unfold Frontend.process_user_input. cbv zeta.
  fold (user_message (c :: q)).
  destruct (Frontend.getitem (Frontend.query_backend post (c :: q)) (py "success"))
    as [ok|e]; [|left; now exists e].
  destruct (Frontend.truth ok).
  - destruct (Frontend.getitem (Frontend.query_backend post (c :: q)) (py "result"))
      as [shown|e]; [|left; now exists e].
    right. eexists _, _. rewrite <- app_assoc. reflexivity.
  - destruct (Frontend.getitem (Frontend.query_backend post (c :: q)) (py "error"))
      as [err|e]; [|left; now exists e].
    right. eexists _, _. rewrite <- app_assoc. reflexivity.
Qed.

(** X19: the history is append-only: a turn keeps the messages there are,
    in order, and adds at most two; on an empty input (none, or the empty
    text) it adds none and the service is not asked. *)
Theorem process_user_input_appends messages user_input :
  (exists added,
     snd (Frontend.process_user_input post messages user_input) = messages ++ added /\
     length added <= 2) /\
  (truthy user_input = false ->
   Frontend.process_user_input post messages user_input = (Returned tt, messages)).
Proof.
  destruct (process_user_input_cases messages user_input)
    as [[E T] | (text & -> & T & [[e E] | (shown & sql & E)])].
  - split; [|intros _; exact E].
    exists []. rewrite E, app_nil_r. split; [reflexivity | simpl; lia].
  - split; [|rewrite T; discriminate].
    eexists. rewrite E. split; [reflexivity | simpl; lia].
  - split; [|rewrite T; discriminate].
    eexists. rewrite E. split; [reflexivity | simpl; lia].
Qed.

(** X20: a turn that ends without an exception on a non-empty input adds
    exactly two messages: the user's text, then one assistant message. *)
Theorem process_user_input_turn messages text after :
  text <> [] ->
  Frontend.process_user_input post messages (Some text) = (Returned tt, after) ->
  exists shown sql,
    after = messages ++ [user_message text; assistant_message shown sql].
Proof.
  intros Ht E.
  destruct (process_user_input_cases messages (Some text))
    as [[_ T] | (text' & [= <-] & _ & [[e E'] | (shown & sql & E')])].
  - destruct text; [contradiction | discriminate T].
  - rewrite E in E'. discriminate E'.
  - rewrite E in E'. injection E' as ->. now exists shown, sql.
Qed.

Lemma failure_items message default :
  Frontend.getitem (Frontend.failure message) (py "success")
  = Returned (Frontend.VBool false) /\
  Frontend.getitem (Frontend.failure message) (py "error")
  = Returned (Frontend.VStr message) /\
  Frontend.get (Frontend.failure message) (py "sql_query") default = default.
Proof. repeat split. Qed.

(** The turn on a dict that [query_backend] built for a failure. *)
Lemma process_user_input_failure messages c q reason :
  Frontend.query_backend post (c :: q) = Frontend.failure reason ->
  Frontend.process_user_input post messages (Some (c :: q)) =
  (Returned tt,
   messages ++ [user_message (c :: q);
                assistant_message
                  (Frontend.VStr (Frontend.cross_mark :: py " " ++ reason))
                  (Frontend.VStr [])]).
Proof.
  intro Q. unfold Frontend.process_user_input. cbv zeta. rewrite Q.
  destruct (failure_items reason (Frontend.VStr [])) as (-> & -> & ->).
  cbn [Frontend.truth Frontend.to_str]. rewrite <- app_assoc. reflexivity.
Qed.

(** X21: when the request to the service fails (no connection, time-out,
    any other exception), or the service answers with a status other than
    200, the turn still completes: the assistant message is the cross mark
    and the kind of failure with its text, and no SQL. *)
Theorem process_user_input_service_failure messages c q :
  let text := c :: q in
  let shows (reason : str) :=
    Frontend.process_user_input post messages (Some text) =
    (Returned tt,
     messages ++ [user_message text;
                  assistant_message
                    (Frontend.VStr (Frontend.cross_mark :: py " " ++ reason))
                    (Frontend.VStr [])]) in
  match post text with
  | Frontend.Failed (Frontend.RequestException msg) =>
      shows (py "Connection error: " ++ msg)
  | Frontend.Failed (Frontend.OtherException msg) =>
      shows (py "Unexpected error: " ++ msg)
  | Frontend.Done response =>
      Frontend.status_code response <> 200%N ->
      shows (py "Backend error: " ++ Frontend.decimal (Frontend.status_code response)
               ++ py " - " ++ Frontend.text response)
  end.
Proof.
  intros text shows. unfold shows. clear shows. subst text.
  destruct (post (c :: q)) as [response | [msg|msg]] eqn:P; [intro H|..];
    apply process_user_input_failure; unfold Frontend.query_backend; rewrite P.
  - apply N.eqb_neq in H. now rewrite H.
  - reflexivity.
  - reflexivity.
Qed.

End FrontendFacts.

Lemma process_user_input_service_failure_example :
  Frontend.process_user_input
    (fun _ => Frontend.Failed (Frontend.RequestException (py "timed out")))
    [] (Some (py "How many customers are there in total?")) =
  (Returned tt,
   [user_message (py "How many customers are there in total?");
    assistant_message
      (Frontend.VStr (Frontend.cross_mark :: py " Connection error: timed out"))
      (Frontend.VStr [])]).
Proof.
  exact (process_user_input_service_failure
           (fun _ => Frontend.Failed (Frontend.RequestException (py "timed out")))
           [] 72%N (py "ow many customers are there in total?")).
Defined.

Lemma process_user_input_turn_example :
  py "Hello" <> [] /\
  exists shown sql,
    [user_message (py "Hello");
     assistant_message
       (Frontend.VStr (Frontend.cross_mark :: py " Backend error: 503 - busy"))
       (Frontend.VStr [])]
    = [] ++ [user_message (py "Hello"); assistant_message shown sql].
Proof.
  assert (Ht : py "Hello" <> []) by discriminate.
  split; [exact Ht|].
  refine (process_user_input_turn
            (fun _ => Frontend.Done
                        {| Frontend.status_code := 503;
                           Frontend.text := py "busy";
                           Frontend.json := Frontend.Failed (Frontend.OtherException []) |})
            [] (py "Hello") _ Ht _).
  vm_compute. reflexivity.
Defined.

(** ** The chat client on the service's answers *)

Section EndToEnd.

Variable upper_table : char -> str.
Variable post : str -> Frontend.attempt Frontend.Response.

Lemma app_two {A} (l : list A) x y : l ++ [x; y] = (l ++ [x]) ++ [y].
Proof. now rewrite <- app_assoc. Qed.

(** The two shapes of the handler's responses. *)
Lemma process_query_response_shape env request response :
  process_query upper_table env request = inl response ->
  exists cleaned_sql,
    sql_query response = Some cleaned_sql /\
    ((success response = true /\ error response = None /\
      exists message, result response = Some message) \/
     (success response = false /\ result response = None /\
      exists c e, error response = Some (py "SQL execution error: " ++ c :: e))).
Proof.
  unfold process_query, bind, execute_sql_safely.
  destruct (init_database env) as [db|e]; [|discriminate].
  destruct (create_sql_chain env) as [chain|e]; [|discriminate].
  destruct (chain (question request)) as [raw_sql|e]; [|discriminate].
  cbv zeta.
  destruct (db (clean_sql_query raw_sql)) as [rows | [|c e]];
    cbn [truthy option_map]; intros [= <-]; cbn;
    eexists; (split; [reflexivity|]).
  - left. repeat split. eexists. reflexivity.
  - left. repeat split. eexists. reflexivity.
  - right. repeat split. now exists c, e.
Qed.

(** X22: when the service answers a question with status 200 and the
    body of the response its handler returned, the turn completes and the
    assistant message shows the formatted result, or, for a failed
    statement, the cross mark and the error text; in both cases it carries
    the cleaned SQL. *)
Theorem process_user_input_on_response env messages c q text response :
  process_query upper_table env {| question := c :: q |} = inl response ->
  post (c :: q) = Frontend.Done {| Frontend.status_code := 200;
                                   Frontend.text := text;
                                   Frontend.json := Frontend.Done (Frontend.body_of response) |} ->
  exists shown cleaned_sql,
    sql_query response = Some cleaned_sql /\
    ((success response = true /\ result response = Some shown) \/
     (success response = false /\
      exists e, error response = Some e /\
                shown = Frontend.cross_mark :: py " " ++ e)) /\
    Frontend.process_user_input post messages (Some (c :: q)) =
    (Returned tt,
     messages ++ [user_message (c :: q);
                  assistant_message (Frontend.VStr shown)
                    (Frontend.VStr cleaned_sql)]).
Proof.
  intros Hq Hp.
  destruct (process_query_response_shape _ _ _ Hq)
    as (cleaned & Hsql & [(Hs & He & m & Hr) | (Hs & Hr & c' & e & He)]).
  - exists m, cleaned. split; [exact Hsql|]. split; [left; now split|].
    unfold Frontend.process_user_input, Frontend.query_backend. cbv zeta.
    rewrite Hp. cbn [Frontend.status_code Frontend.json N.eqb Pos.eqb].
    unfold Frontend.body_of. rewrite Hs, Hr, Hsql, He.
    rewrite app_two. reflexivity.
  - exists (Frontend.cross_mark :: py " " ++ py "SQL execution error: " ++ c' :: e), cleaned.
    split; [exact Hsql|]. split.
    { right. split; [exact Hs|].
      exists (py "SQL execution error: " ++ c' :: e). split; [exact He | reflexivity]. }
    unfold Frontend.process_user_input, Frontend.query_backend. cbv zeta.
    rewrite Hp. cbn [Frontend.status_code Frontend.json N.eqb Pos.eqb].
    unfold Frontend.body_of. rewrite Hs, Hr, Hsql, He.
    rewrite app_two. reflexivity.
Qed.

End EndToEnd.

Lemma process_user_input_on_response_example :
  let env := {| init_database := Returned (fun _ => Returned (py "[(59,)]"));
                create_sql_chain :=
                  Returned (fun _ => Returned (py "SELECT COUNT(*) FROM customers;")) |} in
  let response := {| success := true;
                     result := Some (py "The result is: [(59,)]");
                     sql_query := Some (py "SELECT COUNT(*) FROM customers;");
                     error := None |} in
  let post := fun _ : str =>
                Frontend.Done {| Frontend.status_code := 200;
                                 Frontend.text := [];
                                 Frontend.json := Frontend.Done (Frontend.body_of response) |} in
  exists shown cleaned_sql,
    sql_query response = Some cleaned_sql /\
    ((success response = true /\ result response = Some shown) \/
     (success response = false /\
      exists e, error response = Some e /\
                shown = Frontend.cross_mark :: py " " ++ e)) /\
    Frontend.process_user_input post [] (Some (py "How many?")) =
    (Returned tt,
     [] ++ [user_message (py "How many?");
            assistant_message (Frontend.VStr shown) (Frontend.VStr cleaned_sql)]).
Proof.
  intros env response post.
  assert (Hq : process_query ascii_only_table env {| question := py "How many?" |}
               = inl response) by (vm_compute; reflexivity).
  exact (process_user_input_on_response ascii_only_table post env []
           72%N (py "ow many?") [] response Hq eq_refl).
Defined.
